(** * SignalWire agent example: the browser client (web/app.js)

    A shallow embedding of [web/app.js]: the values that travel in user
    events, the page state the script owns (its globals and the DOM nodes it
    writes), the bounded event log, the user-event handler and the
    connect / disconnect life cycle, followed by the properties the
    specification states about them. *)

From Stdlib Require Import List String Ascii Bool ZArith Arith Lia DecimalString.
Import ListNotations.

Local Open Scope list_scope.
Local Open Scope string_scope.

Set Warnings "-register-all".

(* ------------------------------------------------------------------------- *)
(** ** JavaScript values *)
(* ------------------------------------------------------------------------- *)

(** The values an event payload or the token response can hold: what
    [JSON.parse] produces, plus [undefined] for a property that is read and
    not there. The numbers of the model are the safe integers (see
    [safe]); a thrown error object is the object that holds its
    [message]. *)
Inductive JsVal : Type :=
  | JUndefined
  | JNull
  | JBool (b : bool)
  | JNum (n : Z)
  | JStr (s : string)
  | JArr (items : list JsVal)
  | JObj (fields : list (string * JsVal)).

(** The property names [app.js] reads from a payload or a response. None of
    them is a property of a string, a number, a boolean or an array, nor of
    [Object.prototype]. *)
Inductive Key : Type :=
  | KParams | KEvent | KType | KName | KMessage | KCount | KIncrement
  | KEventType | KError | KToken | KAddress.

Definition key_name (k : Key) : string :=
  match k with
  | KParams => "params"
  | KEvent => "event"
  | KType => "type"
  | KName => "name"
  | KMessage => "message"
  | KCount => "count"
  | KIncrement => "increment"
  | KEventType => "event_type"
  | KError => "error"
  | KToken => "token"
  | KAddress => "address"
  end.

Fixpoint lookup (name : string) (fields : list (string * JsVal)) : JsVal :=
  match fields with
  | [] => JUndefined
  | (k, v) :: rest => if String.eqb k name then v else lookup name rest
  end.

(** [v.k] for a value [v] that is neither [null] nor [undefined]. On those
    two the read throws: the reads of [handleUserEvent] are behind a
    truthiness test, the others go through [member]. *)
Definition get_prop (v : JsVal) (k : Key) : JsVal :=
  match v with
  | JObj fields => lookup (key_name k) fields
  | _ => JUndefined
  end.

(** ToBoolean. *)
Definition truthy (v : JsVal) : bool :=
  match v with
  | JUndefined | JNull => false
  | JBool b => b
  | JNum n => negb (Z.eqb n 0)
  | JStr s => negb (String.eqb s "")
  | JArr _ | JObj _ => true
  end.

(** [a || b]. *)
Definition js_or (a b : JsVal) : JsVal := if truthy a then a else b.

Definition typeof (v : JsVal) : string :=
  match v with
  | JUndefined => "undefined"
  | JNull => "object"
  | JBool _ => "boolean"
  | JNum _ => "number"
  | JStr _ => "string"
  | JArr _ | JObj _ => "object"
  end.

(** [v === 'lit'] against a string literal. *)
Definition is_str (v : JsVal) (lit : string) : bool :=
  match v with
  | JStr s => String.eqb s lit
  | _ => false
  end.

(** [list.includes(v)] for an array of string literals. *)
Definition includes (arr : list string) (v : JsVal) : bool :=
  existsb (is_str v) arr.

Definition nullish (v : JsVal) : bool :=
  match v with
  | JUndefined | JNull => true
  | _ => false
  end.

(** The decimal digits of an integer: what ToString gives for a safe
    integer. *)
Definition Z_to_string (n : Z) : string := NilZero.string_of_int (Z.to_int n).

(** [Number.isSafeInteger]: the integers that a number holds exactly and
    that ToString prints digit by digit. *)
Definition safe_integer (n : Z) : bool := (Z.abs n <? 2 ^ 53)%Z.

(** The values all of whose numbers that ToString would print are safe
    integers. On the others the text of [to_string] is not the text of the
    engine (which rounds, and prints an exponent from 1e21 on); whether the
    conversion throws is the same. *)
Fixpoint safe (v : JsVal) : bool :=
  match v with
  | JNum n => safe_integer n
  | JArr items =>
      (fix all (l : list JsVal) : bool :=
         match l with
         | [] => true
         | x :: rest => safe x && all rest
         end) items
  | _ => true
  end.

(** An own property of that name, whatever it holds. *)
Definition has_key (name : string) (fields : list (string * JsVal)) : bool :=
  existsb (fun kv => String.eqb (fst kv) name) fields.

(** ToString, as a template literal, [new Error(v)] and the setter of
    [textContent] apply it; [None] where it throws a [TypeError]. An object
    that has an own [toString] holds a value there that cannot be called,
    and the inherited [valueOf] returns the object: there is no primitive
    to convert. An array joins the conversions of its elements. *)
Fixpoint to_string (v : JsVal) : option string :=
  match v with
  | JUndefined => Some "undefined"
  | JNull => Some "null"
  | JBool true => Some "true"
  | JBool false => Some "false"
  | JNum n => Some (Z_to_string n)
  | JStr s => Some s
  | JArr items =>
      (fix join (l : list JsVal) : option string :=
         match l with
         | [] => Some ""
         | x :: rest =>
             match match x with
                   | JUndefined | JNull => Some ""
                   | _ => to_string x
                   end with
             | None => None
             | Some elt =>
                 match rest with
                 | [] => Some elt
                 | _ :: _ =>
                     match join rest with
                     | None => None
                     | Some others => Some (elt ++ "," ++ others)
                     end
                 end
             end
         end) items
  | JObj fields =>
      if has_key "toString" fields then None else Some "[object Object]"
  end.

(* ------------------------------------------------------------------------- *)
(** ** Page state *)
(* ------------------------------------------------------------------------- *)

(** Handles of the SDK's client and room session: opaque to the script. *)
Definition Client := nat.
Definition Session := nat.

(** A child of [eventLogEl]: [className] is [log-entry <type>], the text is
    the time stamp followed by the message. *)
Record LogEntry : Type := mkLogEntry {
  timestamp : string;
  kind : string;
  message : string
}.

(** What [videoContainer] holds of the [.placeholder] element. *)
Inductive Placeholder : Type :=
  | PlaceholderAbsent
  | PlaceholderShown
  | PlaceholderHidden.

(** Calls on the external capabilities (the token endpoint and the SDK), in
    the order the script makes them. *)
Inductive Effect : Type :=
  | FetchToken
  | InitClient (token : JsVal)
  | ClientOn (channel : string)
  | Dial (destination : JsVal)
  | SessionOn (channel : string)
  | StartSession
  | Hangup (s : Session).

(** [statusShown] lists the classes the status element has had since the
    page was loaded, oldest first; writing the class it has adds nothing. *)
Record State : Type := mkState {
  (* globals, lines 24-34 *)
  client : option Client;
  roomSession : option Session;
  currentToken : JsVal;
  currentDestination : JsVal;
  isConnected : bool;
  (* DOM nodes, lines 41-48 *)
  statusClass : string;
  statusText : string;
  statusShown : list string;
  connectDisabled : bool;
  disconnectDisabled : bool;
  placeholder : Placeholder;
  counterValue : string;
  counterHighlight : bool;
  lastGreeting : string;
  greetingHighlight : bool;
  lastEcho : string;
  echoHighlight : bool;
  eventLog : list LogEntry;
  (* the environment: the reading of the wall clock, the calls made *)
  wallClock : string;
  effects : list Effect
}.

Definition set_client (c : option Client) (st : State) : State :=
  mkState c (roomSession st) (currentToken st) (currentDestination st)
    (isConnected st) (statusClass st) (statusText st) (statusShown st)
    (connectDisabled st)
    (disconnectDisabled st) (placeholder st) (counterValue st)
    (counterHighlight st) (lastGreeting st) (greetingHighlight st)
    (lastEcho st) (echoHighlight st) (eventLog st) (wallClock st) (effects st).

Definition set_roomSession (s : option Session) (st : State) : State :=
  mkState (client st) s (currentToken st) (currentDestination st)
    (isConnected st) (statusClass st) (statusText st) (statusShown st)
    (connectDisabled st)
    (disconnectDisabled st) (placeholder st) (counterValue st)
    (counterHighlight st) (lastGreeting st) (greetingHighlight st)
    (lastEcho st) (echoHighlight st) (eventLog st) (wallClock st) (effects st).

Definition set_credentials (token destination : JsVal) (st : State) : State :=
  mkState (client st) (roomSession st) token destination
    (isConnected st) (statusClass st) (statusText st) (statusShown st)
    (connectDisabled st)
    (disconnectDisabled st) (placeholder st) (counterValue st)
    (counterHighlight st) (lastGreeting st) (greetingHighlight st)
    (lastEcho st) (echoHighlight st) (eventLog st) (wallClock st) (effects st).

Definition set_isConnected (b : bool) (st : State) : State :=
  mkState (client st) (roomSession st) (currentToken st) (currentDestination st)
    b (statusClass st) (statusText st) (statusShown st)
    (connectDisabled st)
    (disconnectDisabled st) (placeholder st) (counterValue st)
    (counterHighlight st) (lastGreeting st) (greetingHighlight st)
    (lastEcho st) (echoHighlight st) (eventLog st) (wallClock st) (effects st).

Definition set_status (cls text : string) (st : State) : State :=
  mkState (client st) (roomSession st) (currentToken st) (currentDestination st)
    (isConnected st) cls text
    (if String.eqb (statusClass st) cls then statusShown st
     else (statusShown st ++ [cls])%list)
    (connectDisabled st)
    (disconnectDisabled st) (placeholder st) (counterValue st)
    (counterHighlight st) (lastGreeting st) (greetingHighlight st)
    (lastEcho st) (echoHighlight st) (eventLog st) (wallClock st) (effects st).

Definition set_buttons (connect_off disconnect_off : bool) (st : State) : State :=
  mkState (client st) (roomSession st) (currentToken st) (currentDestination st)
    (isConnected st) (statusClass st) (statusText st) (statusShown st)
    connect_off disconnect_off (placeholder st) (counterValue st)
    (counterHighlight st) (lastGreeting st) (greetingHighlight st)
    (lastEcho st) (echoHighlight st) (eventLog st) (wallClock st) (effects st).

Definition set_placeholder (p : Placeholder) (st : State) : State :=
  mkState (client st) (roomSession st) (currentToken st) (currentDestination st)
    (isConnected st) (statusClass st) (statusText st) (statusShown st)
    (connectDisabled st)
    (disconnectDisabled st) p (counterValue st)
    (counterHighlight st) (lastGreeting st) (greetingHighlight st)
    (lastEcho st) (echoHighlight st) (eventLog st) (wallClock st) (effects st).

Definition set_counter (text : string) (hl : bool) (st : State) : State :=
  mkState (client st) (roomSession st) (currentToken st) (currentDestination st)
    (isConnected st) (statusClass st) (statusText st) (statusShown st)
    (connectDisabled st)
    (disconnectDisabled st) (placeholder st) text
    hl (lastGreeting st) (greetingHighlight st)
    (lastEcho st) (echoHighlight st) (eventLog st) (wallClock st) (effects st).

Definition set_greeting (text : string) (hl : bool) (st : State) : State :=
  mkState (client st) (roomSession st) (currentToken st) (currentDestination st)
    (isConnected st) (statusClass st) (statusText st) (statusShown st)
    (connectDisabled st)
    (disconnectDisabled st) (placeholder st) (counterValue st)
    (counterHighlight st) text hl
    (lastEcho st) (echoHighlight st) (eventLog st) (wallClock st) (effects st).

Definition set_echo (text : string) (hl : bool) (st : State) : State :=
  mkState (client st) (roomSession st) (currentToken st) (currentDestination st)
    (isConnected st) (statusClass st) (statusText st) (statusShown st)
    (connectDisabled st)
    (disconnectDisabled st) (placeholder st) (counterValue st)
    (counterHighlight st) (lastGreeting st) (greetingHighlight st)
    text hl (eventLog st) (wallClock st) (effects st).

Definition set_eventLog (l : list LogEntry) (st : State) : State :=
  mkState (client st) (roomSession st) (currentToken st) (currentDestination st)
    (isConnected st) (statusClass st) (statusText st) (statusShown st)
    (connectDisabled st)
    (disconnectDisabled st) (placeholder st) (counterValue st)
    (counterHighlight st) (lastGreeting st) (greetingHighlight st)
    (lastEcho st) (echoHighlight st) l (wallClock st) (effects st).

Definition set_wallClock (t : string) (st : State) : State :=
  mkState (client st) (roomSession st) (currentToken st) (currentDestination st)
    (isConnected st) (statusClass st) (statusText st) (statusShown st)
    (connectDisabled st)
    (disconnectDisabled st) (placeholder st) (counterValue st)
    (counterHighlight st) (lastGreeting st) (greetingHighlight st)
    (lastEcho st) (echoHighlight st) (eventLog st) t (effects st).

Definition record_effect (e : Effect) (st : State) : State :=
  mkState (client st) (roomSession st) (currentToken st) (currentDestination st)
    (isConnected st) (statusClass st) (statusText st) (statusShown st)
    (connectDisabled st)
    (disconnectDisabled st) (placeholder st) (counterValue st)
    (counterHighlight st) (lastGreeting st) (greetingHighlight st)
    (lastEcho st) (echoHighlight st) (eventLog st) (wallClock st)
    (effects st ++ [e])%list.

(* ------------------------------------------------------------------------- *)
(** ** UI helpers (lines 341-378) *)
(* ------------------------------------------------------------------------- *)

(** [updateStatus(state, text)], lines 341-344. *)
Definition updateStatus (state text : string) (st : State) : State :=
  set_status ("status " ++ state) text st.

(** [updateButtons()], lines 350-353. *)
Definition updateButtons (st : State) : State :=
  set_buttons (isConnected st) (negb (isConnected st)) st.

(** The cap of the log, line 375. *)
Definition LOG_CAP : nat := 50.

(** [while (children.length > 50) removeChild(firstChild)], lines 375-377. *)
Fixpoint trim (children : list LogEntry) : list LogEntry :=
  match children with
  | [] => []
  | _ :: rest =>
      if Nat.ltb LOG_CAP (List.length children) then trim rest else children
  end.

(** [logEvent(type, message)], lines 362-378. *)
Definition logEvent (type msg : string) (st : State) : State :=
  let entry := mkLogEntry (wallClock st) type msg in
  set_eventLog (trim (eventLog st ++ [entry])%list) st.

(* ------------------------------------------------------------------------- *)
(** ** Tasks: state passing with exceptions *)
(* ------------------------------------------------------------------------- *)

(** What a [throw] or a rejected promise carries and a [catch] receives:
    any value, [null] and [undefined] among them. *)
Definition JsError : Type := JsVal.

(** An error object with the message [msg]. *)
Definition mkError (msg : string) : JsError := JObj [("message", JStr msg)].

Definition Task (A : Type) : Type := State -> State * (JsError + A).

Definition ret {A} (a : A) : Task A := fun st => (st, inr a).

Definition bind {A B} (m : Task A) (k : A -> Task B) : Task B :=
  fun st =>
    match m st with
    | (st', inr a) => k a st'
    | (st', inl e) => (st', inl e)
    end.

Definition throw {A} (e : JsError) : Task A := fun st => (st, inl e).

Definition act (f : State -> State) : Task unit := fun st => (f st, inr tt).

Definition gets {A} (f : State -> A) : Task A := fun st => (st, inr (f st)).

(** A synchronous call on an external capability: it is made, then it
    returns or throws. *)
Definition call (e : Effect) (result : option JsError) : Task unit :=
  fun st =>
    match result with
    | None => (record_effect e st, inr tt)
    | Some err => (record_effect e st, inl err)
    end.

Declare Scope task_scope.
Delimit Scope task_scope with task.
Notation "x <- m ;; k" := (bind m (fun x => k))
  (at level 61, m at next level, right associativity) : task_scope.
Notation "m ;; k" := (bind m (fun _ => k))
  (at level 61, right associativity) : task_scope.

Local Open Scope task_scope.

Definition perform (e : Effect) : Task unit := call e None.

(** The text of the [TypeError] of a property read on [null] or
    [undefined], in V8's wording. *)
Definition type_error_message (v : JsVal) (prop : string) : string :=
  "Cannot read properties of "
  ++ match v with JNull => "null" | _ => "undefined" end
  ++ " (reading '" ++ prop ++ "')".

(** The [TypeError] of a conversion that finds no primitive, in V8's
    wording. *)
Definition conversion_error : JsError :=
  mkError "Cannot convert object to primitive value".

(** [`${v}`]: the text of [v], or the [TypeError] of the conversion. *)
Definition convert (v : JsVal) : Task string :=
  match to_string v with
  | Some text => ret text
  | None => throw conversion_error
  end.

(** [v.k]: the read throws on [null] and [undefined]. *)
Definition member (v : JsVal) (k : Key) : Task JsVal :=
  if nullish v
  then throw (mkError (type_error_message v (key_name k)))
  else ret (get_prop v k).

(* ------------------------------------------------------------------------- *)
(** ** User events (lines 258-328) *)
(* ------------------------------------------------------------------------- *)

(** Line 283. *)
Definition internalTypes : list string :=
  ["room.joined"; "room.left"; "member.joined"; "member.left";
   "playback.started"; "playback.ended"].

(** The extraction of the event data, lines 265-273: two tests one after
    the other, each assigning [eventData]. *)
Definition unwrap (params : JsVal) : JsVal :=
  let eventData := params in
  let eventData :=
    if truthy params && truthy (get_prop params KParams)
    then get_prop params KParams else eventData in
  let eventData :=
    if truthy params && truthy (get_prop params KEvent)
    then get_prop params KEvent else eventData in
  eventData.

(** [handleUserEvent(params)], lines 258-328, as it runs: it returns, or a
    conversion to text throws (lines 298, 307, 317, 320) and the writes
    made so far stay. The [setTimeout] callbacks of lines 300, 309
    and 319 run later, as notifications of their own. *)
Definition handleUserEvent_run (params : JsVal) : Task unit :=
  let eventData := unwrap params in
  if negb (truthy eventData)
     || negb (String.eqb (typeof (get_prop eventData KType)) "string")
  then ret tt
  else if includes internalTypes (get_prop eventData KType) then ret tt
  else
    let eventType := get_prop eventData KType in
    if is_str eventType "greeting" then
      let name := js_or (get_prop eventData KName) (JStr "Unknown") in
      text <- convert name ;;
      act (set_greeting ("Hello, " ++ text ++ "!") true) ;;
      act (logEvent "greeting" ("Greeted: " ++ text))
    else if is_str eventType "echo" then
      let message := js_or (get_prop eventData KMessage) (JStr "") in
      text <- convert message ;;
      act (set_echo (String DoubleQuote (text ++ String DoubleQuote "")) true) ;;
      act (logEvent "echo" ("Echoed: " ++ text))
    else if is_str eventType "counter_updated" then
      let count := js_or (get_prop eventData KCount) (JNum 0) in
      let increment := js_or (get_prop eventData KIncrement) (JNum 1) in
      shown <- convert count ;;
      act (set_counter shown true) ;;
      added <- convert increment ;;
      act (logEvent "counter" ("Counter: " ++ shown ++ " (+" ++ added ++ ")"))
    else
      text <- convert eventType ;;
      act (logEvent "unknown" ("Unknown event: " ++ text)).

(** The page after [handleUserEvent(params)], whether it returned or
    threw. *)
Definition handleUserEvent (params : JsVal) (st : State) : State :=
  fst (handleUserEvent_run params st).

(** The classified event: which branch of the [switch] of line 294 runs, with
    the constants that branch computes. *)
Inductive ApplicationEvent : Type :=
  | Greeting (name : JsVal)
  | Echo (message : JsVal)
  | CounterUpdated (count increment : JsVal)
  | Unknown (rawType : string) (data : JsVal).

(** The decisions of [handleUserEvent] without its writes: [None] where it
    returns early (lines 277-287), the branch taken otherwise. *)
Definition normalize (raw : JsVal) : option ApplicationEvent :=
  let eventData := unwrap raw in
  if negb (truthy eventData) then None
  else
    match get_prop eventData KType with
    | JStr eventType =>
        if existsb (String.eqb eventType) internalTypes then None
        else if String.eqb eventType "greeting" then
          Some (Greeting (js_or (get_prop eventData KName) (JStr "Unknown")))
        else if String.eqb eventType "echo" then
          Some (Echo (js_or (get_prop eventData KMessage) (JStr "")))
        else if String.eqb eventType "counter_updated" then
          Some (CounterUpdated (js_or (get_prop eventData KCount) (JNum 0))
                               (js_or (get_prop eventData KIncrement) (JNum 1)))
        else Some (Unknown eventType eventData)
    | _ => None
    end.

(** Each branch of the [switch], lines 295-326, as it runs. *)
Definition reflect_run (ev : ApplicationEvent) : Task unit :=
  match ev with
  | Greeting name =>
      text <- convert name ;;
      act (set_greeting ("Hello, " ++ text ++ "!") true) ;;
      act (logEvent "greeting" ("Greeted: " ++ text))
  | Echo message =>
      text <- convert message ;;
      act (set_echo (String DoubleQuote (text ++ String DoubleQuote "")) true) ;;
      act (logEvent "echo" ("Echoed: " ++ text))
  | CounterUpdated count increment =>
      shown <- convert count ;;
      act (set_counter shown true) ;;
      added <- convert increment ;;
      act (logEvent "counter" ("Counter: " ++ shown ++ " (+" ++ added ++ ")"))
  | Unknown rawType _ =>
      act (logEvent "unknown" ("Unknown event: " ++ rawType))
  end.

(** The page after the branch, whether it ran to its end or threw. *)
Definition reflect (ev : ApplicationEvent) (st : State) : State :=
  fst (reflect_run ev st).

(* ------------------------------------------------------------------------- *)
(** ** Teardown and the handlers the script registers *)
(* ------------------------------------------------------------------------- *)

(** [handleDisconnect()], lines 229-238. Line 234 replaces the content of
    the video container by a fresh placeholder. *)
Definition handleDisconnect (st : State) : State :=
  let st := set_isConnected false st in
  let st := set_roomSession None st in
  let st := set_placeholder PlaceholderShown st in
  let st := updateStatus "disconnected" "Disconnected" st in
  updateButtons st.

(** The handler of [room.joined], lines 163-174. *)
Definition on_room_joined (st : State) : State :=
  let st := logEvent "system" "Connected to agent" st in
  let st := updateStatus "connected" "Connected" st in
  let st := set_isConnected true st in
  let st := updateButtons st in
  match placeholder st with
  | PlaceholderAbsent => st
  | _ => set_placeholder PlaceholderHidden st
  end.

(** The handler of [room.left], lines 176-179. *)
Definition on_room_left (st : State) : State :=
  handleDisconnect (logEvent "system" "Disconnected from agent" st).

(** The handler of [destroy], lines 181-184. *)
Definition on_destroy (st : State) : State :=
  handleDisconnect (logEvent "system" "Session destroyed" st).

(** The handler of [signalwire.event], lines 120-125. Reading [event_type]
    from [null] or [undefined] throws before anything is written: [None].
    Otherwise the page after the handler, whether [handleUserEvent]
    returned or threw. *)
Definition on_signalwire_event (params : JsVal) (st : State) : option State :=
  if nullish params then None
  else if is_str (get_prop params KEventType) "user_event"
       then Some (handleUserEvent (js_or (get_prop params KParams) params) st)
       else Some st.

(** The three displays that carry a transient highlight. *)
Inductive Display : Type :=
  | CounterDisplay
  | GreetingDisplay
  | EchoDisplay.

(** The [setTimeout] callbacks of lines 300, 309 and 319. *)
Definition clear_highlight (d : Display) (st : State) : State :=
  match d with
  | CounterDisplay => set_counter (counterValue st) false st
  | GreetingDisplay => set_greeting (lastGreeting st) false st
  | EchoDisplay => set_echo (lastEcho st) false st
  end.

(** What the event loop can run between two pieces of [connect] or
    [disconnect]: a handler the script registered, a timer, or time
    passing. *)
Inductive Notification : Type :=
  | ClientUserEvent (params : JsVal)          (* line 108 *)
  | ClientCallingUserEvent (params : JsVal)   (* line 114 *)
  | ClientSignalwireEvent (params : JsVal)    (* line 120 *)
  | SessionUserEvent (params : JsVal)         (* line 157 *)
  | RoomJoined                                (* line 163 *)
  | RoomLeft                                  (* line 176 *)
  | SessionDestroy                            (* line 181 *)
  | HighlightTimeout (d : Display)
  | ClockAdvance (now : string).

(** One notification, run to its end or to a throw. What a handler wrote
    before it threw stays; the exception goes to the SDK's emitter. *)
Definition deliver (n : Notification) (st : State) : State :=
  match n with
  | ClientUserEvent params => handleUserEvent params st
  | ClientCallingUserEvent params => handleUserEvent params st
  | ClientSignalwireEvent params =>
      match on_signalwire_event params st with
      | Some st' => st'
      | None => st
      end
  | SessionUserEvent params => handleUserEvent params st
  | RoomJoined => on_room_joined st
  | RoomLeft => on_room_left st
  | SessionDestroy => on_destroy st
  | HighlightTimeout d => clear_highlight d st
  | ClockAdvance now => set_wallClock now st
  end.

Definition deliver_all (ns : list Notification) (st : State) : State :=
  fold_left (fun s n => deliver n s) ns st.

(** [await p]: the function is suspended, the event loop runs [during],
    then the promise settles. *)
Definition await {A} (during : list Notification) (result : JsError + A)
  : Task A :=
  fun st => (deliver_all during st, result).

(* ------------------------------------------------------------------------- *)
(** ** connect (lines 65-199) *)
(* ------------------------------------------------------------------------- *)

(** What the outside answers during one run of [connect]: for each [await],
    the notifications the event loop runs meanwhile and how the promise
    settles; for each subscription, whether [on] throws. *)
Record ConnectScript : Type := mkConnectScript {
  during_fetch : list Notification;
  fetch_result : JsError + JsVal;        (* lines 79-80, [fetch] and [json] *)
  during_init : list Notification;
  init_result : JsError + Client;        (* line 95 *)
  client_on_result : string -> option JsError;   (* lines 108-125 *)
  during_dial : list Notification;
  dial_result : JsError + Session;       (* line 132 *)
  session_on_result : string -> option JsError;  (* lines 157-184 *)
  during_start : list Notification;
  start_result : JsError + unit          (* line 189 *)
}.

(** Lines 82-98: from the parsed token response to the call of the SDK.
    Line 83 converts the [error] field for the message of the error it
    throws, line 89 converts the destination for the log; either
    conversion can throw instead. *)
Definition token_step (tokenData : JsVal) : Task unit :=
  failed <- member tokenData KError ;;
  (if truthy failed
   then text <- convert failed ;; throw (mkError text)
   else ret tt) ;;
  act (set_credentials (get_prop tokenData KToken)
                       (get_prop tokenData KAddress)) ;;
  destination <- gets currentDestination ;;
  text <- convert destination ;;
  act (logEvent "system" ("Token received, destination: " ++ text)) ;;
  act (updateStatus "connecting" "Initializing client...") ;;
  token <- gets currentToken ;;
  perform (InitClient token).

(** Lines 95-148: from the client to the call of [dial]. *)
Definition client_step (on : string -> option JsError) (c : Client)
  : Task unit :=
  act (set_client (Some c)) ;;
  act (logEvent "system" "Client initialized") ;;
  call (ClientOn "user_event") (on "user_event") ;;
  call (ClientOn "calling.user_event") (on "calling.user_event") ;;
  call (ClientOn "signalwire.event") (on "signalwire.event") ;;
  act (updateStatus "connecting" "Dialing agent...") ;;
  destination <- gets currentDestination ;;
  perform (Dial destination).

(** Lines 132-189: from the room session to the call of [start]. *)
Definition session_step (on : string -> option JsError) (s : Session)
  : Task unit :=
  act (set_roomSession (Some s)) ;;
  act (logEvent "system" "Call initiated, waiting for connection...") ;;
  call (SessionOn "user_event") (on "user_event") ;;
  call (SessionOn "room.joined") (on "room.joined") ;;
  call (SessionOn "room.left") (on "room.left") ;;
  call (SessionOn "destroy") (on "destroy") ;;
  perform StartSession.

(** Line 191. *)
Definition started_step : Task unit :=
  act (logEvent "system" "Call started successfully").

(** The [try] block, lines 74-192. *)
Definition connect_body (sc : ConnectScript) : Task unit :=
  perform FetchToken ;;
  tokenData <- await (during_fetch sc) (fetch_result sc) ;;
  token_step tokenData ;;
  c <- await (during_init sc) (init_result sc) ;;
  client_step (client_on_result sc) c ;;
  s <- await (during_dial sc) (dial_result sc) ;;
  session_step (session_on_result sc) s ;;
  _ <- await (during_start sc) (start_result sc) ;;
  started_step.

(** The [catch] block, lines 193-198, as it runs. Line 195 reads
    [error.message], which throws on [null] and [undefined], and converts
    it, which can throw too; the rest of the block is then not run. *)
Definition connect_catch_run (error : JsError) : Task unit :=
  message <- member error KMessage ;;
  text <- convert message ;;
  act (logEvent "error" ("Connection failed: " ++ text)) ;;
  act (updateStatus "error" "Connection failed") ;;
  act handleDisconnect.

(** The page after the [catch] block, whether it ran to its end or
    threw. *)
Definition connect_catch (error : JsError) (st : State) : State :=
  fst (connect_catch_run error st).

(** Lines 66-72: the guard, and what precedes the [try]. [false] where
    [connect] returns at line 68. *)
Definition connect_enter (st : State) : State * bool :=
  if isConnected st
  then (logEvent "system" "Already connected" st, false)
  else
    let st := updateStatus "connecting" "Getting token..." st in
    (logEvent "system" "Fetching authentication token..." st, true).

(** How a call of [connect] ends: it returns at the guard; the [try]
    block runs to its end; the [catch] block receives [error] and runs to
    its end; or the [catch] block itself throws [thrown], which rejects the
    promise of [connect]. *)
Inductive ConnectResult : Type :=
  | AlreadyConnected
  | Completed
  | Failed (error : JsError)
  | Rejected (thrown : JsError).

(** [connect()], lines 65-199. *)
Definition connect (sc : ConnectScript) (st : State) : State * ConnectResult :=
  match connect_enter st with
  | (st, false) => (st, AlreadyConnected)
  | (st, true) =>
      match connect_body sc st with
      | (st, inr _) => (st, Completed)
      | (st, inl error) =>
          match connect_catch_run error st with
          | (st, inr _) => (st, Failed error)
          | (st, inl thrown) => (st, Rejected thrown)
          end
      end
  end.

(* ------------------------------------------------------------------------- *)
(** ** disconnect (lines 205-223) *)
(* ------------------------------------------------------------------------- *)

Record DisconnectScript : Type := mkDisconnectScript {
  during_hangup : list Notification;
  hangup_result : JsError + unit         (* line 216 *)
}.

Definition has_session (st : State) : bool :=
  match roomSession st with
  | Some _ => true
  | None => false
  end.

(** Lines 206-212. [false] where [disconnect] returns at line 208. *)
Definition disconnect_enter (st : State) : State * bool :=
  if negb (isConnected st) && negb (has_session st)
  then (logEvent "system" "Not connected" st, false)
  else
    let st := logEvent "system" "Disconnecting..." st in
    (updateStatus "disconnecting" "Disconnecting..." st, true).

(** The [try] block, lines 214-217. *)
Definition hangup_step (sc : DisconnectScript) : Task unit :=
  s <- gets roomSession ;;
  match s with
  | Some s => perform (Hangup s) ;; await (during_hangup sc) (hangup_result sc)
  | None => ret tt
  end.

(** [disconnect()], lines 205-223. The [catch] of lines 218-220 only writes
    to the console. *)
Definition disconnect (sc : DisconnectScript) (st : State) : State :=
  match disconnect_enter st with
  | (st, false) => st
  | (st, true) =>
      match hangup_step sc st with
      | (st, _) => handleDisconnect st
      end
  end.

(** Lines 386-387, run when the script loads. *)
Definition startup (st : State) : State :=
  let st := logEvent "system" "Application loaded" st in
  logEvent "system" "Ready to connect to SignalWire AI agent" st.

(* ------------------------------------------------------------------------- *)
(** ** The connection state shown by the status element *)
(* ------------------------------------------------------------------------- *)

(** The [state] argument of [updateStatus] (line 338), read back from the
    class of the status element. *)
Inductive ConnectionState : Type :=
  | Idle
  | Connecting
  | Connected
  | Disconnecting
  | Disconnected
  | Error.

Definition state_name (s : ConnectionState) : string :=
  match s with
  | Idle => "ready"
  | Connecting => "connecting"
  | Connected => "connected"
  | Disconnecting => "disconnecting"
  | Disconnected => "disconnected"
  | Error => "error"
  end.

Definition connection_state (st : State) : option ConnectionState :=
  find (fun s => String.eqb (statusClass st) ("status " ++ state_name s))
    [Idle; Connecting; Connected; Disconnecting; Disconnected; Error].

Definition connect_enabled (st : State) : bool := negb (connectDisabled st).
Definition disconnect_enabled (st : State) : bool := negb (disconnectDisabled st).

(* ------------------------------------------------------------------------- *)
(** ** The event loop *)
(* ------------------------------------------------------------------------- *)

(** A piece of the [try] block of [connect] resumed with what the awaited
    promise settled with; a throw ends in the [catch]. *)
Definition resume (piece : Task unit) (st : State) : State :=
  match piece st with
  | (st, inr _) => st
  | (st, inl error) => connect_catch error st
  end.

Inductive connect_piece : Task unit -> Prop :=
  | piece_token tokenData : connect_piece (token_step tokenData)
  | piece_client on c : connect_piece (client_step on c)
  | piece_session on s : connect_piece (session_step on s)
  | piece_started : connect_piece started_step
  | piece_rejected error : connect_piece (throw error).

(** A call of [connect], up to its first [await]. *)
Definition connect_click (st : State) : State :=
  match connect_enter st with
  | (st, false) => st
  | (st, true) => resume (perform FetchToken) st
  end.

(** A call of [disconnect], up to its [await] (or to its end when there is
    no session to hang up). *)
Definition disconnect_click (st : State) : State :=
  match disconnect_enter st with
  | (st, false) => st
  | (st, true) =>
      match roomSession st with
      | Some s => record_effect (Hangup s) st
      | None => handleDisconnect st
      end
  end.

(** One turn of the event loop: a notification, a call of [connect] or
    [disconnect] up to its first [await], or a suspended call resumed. Any
    number of calls may be in flight. *)
Inductive step : State -> State -> Prop :=
  | step_deliver n st : step st (deliver n st)
  | step_connect st : step st (connect_click st)
  | step_connect_resume piece st :
      connect_piece piece -> step st (resume piece st)
  | step_disconnect st : step st (disconnect_click st)
  | step_disconnect_resume st : step st (handleDisconnect st).

(** The states the page goes through, from the state [page] in which the
    script is loaded. *)
Inductive reachable (page : State) : State -> Prop :=
  | reach_startup : reachable page (startup page)
  | reach_step st st' : reachable page st -> step st st' -> reachable page st'.

(** Any number of turns. *)
Inductive steps : State -> State -> Prop :=
  | steps_refl st : steps st st
  | steps_next st st' st'' : steps st st' -> step st' st'' -> steps st st''.

(* ------------------------------------------------------------------------- *)
(** ** The unwrap step as the specification words it *)
(* ------------------------------------------------------------------------- *)

(** [k in v]: the object has the field, whatever it holds. *)
Definition has_prop (v : JsVal) (k : Key) : bool :=
  match v with
  | JObj fields => existsb (fun kv => String.eqb (fst kv) (key_name k)) fields
  | _ => false
  end.

(** The unwrap step in the words of the specification, section 4.2: "if
    [raw.params] exists, use it as the working payload; else if [raw.event]
    exists, use that; else use [raw] itself". To be compared with
    [unwrap]. *)
Definition spec_unwrap (raw : JsVal) : JsVal :=
  if has_prop raw KParams then get_prop raw KParams
  else if has_prop raw KEvent then get_prop raw KEvent
  else raw.

(** [{params: {type: "greeting"}, event: {type: "echo"}}] *)
Definition both_wrappers : JsVal :=
  JObj [("params", JObj [("type", JStr "greeting")]);
        ("event", JObj [("type", JStr "echo")])].

(** [{params: null, type: "echo"}] *)
Definition null_params : JsVal :=
  JObj [("params", JNull); ("type", JStr "echo")].

(** [{params: {params: {type: "echo"}}}] *)
Definition nested_params : JsVal :=
  JObj [("params", JObj [("params", JObj [("type", JStr "echo")])])].

(* ------------------------------------------------------------------------- *)
(** ** Sample events and runs of the log *)
(* ------------------------------------------------------------------------- *)

(** [{type: "greeting", name: "Ana"}] *)
Definition greeting_ana : JsVal :=
  JObj [("type", JStr "greeting"); ("name", JStr "Ana")].


(** [{event: {type: "counter_updated", count: 5}}] *)
Definition counter_in_event : JsVal :=
  JObj [("event", JObj [("type", JStr "counter_updated"); ("count", JNum 5)])].

(** [{type: "greeting", name: {toString: 1}}] *)
Definition greeting_unprintable : JsVal :=
  JObj [("type", JStr "greeting"); ("name", JObj [("toString", JNum 1)])].

(** [{type: "foobar"}] *)
Definition foobar : JsVal := JObj [("type", JStr "foobar")].

(** [logEvent] called once for each (type, message) of a list, in order. *)
Definition append_all (entries : list (string * string)) (st : State) : State :=
  fold_left (fun s e => logEvent (fst e) (snd e) s) entries st.

(** The element the [n]-th call (from 1) of a run of [append_all] creates. *)
Definition entry_of (st : State) (e : string * string) : LogEntry :=
  mkLogEntry (wallClock st) (fst e) (snd e).

(** The last [LOG_CAP] elements of a list. *)
Definition newest (l : list LogEntry) : list LogEntry :=
  skipn (List.length l - LOG_CAP) l.

Definition nat_to_string (n : nat) : string :=
  NilEmpty.string_of_uint (Nat.to_uint n).

(** Fifty-one entries, with the messages "1" to "51". *)
Definition fifty_one : list (string * string) :=
  map (fun n => ("system", nat_to_string n)) (seq 1 51).

(** A page at load time. The globals are as lines 24-34 declare them; the
    content of the DOM nodes stands for the markup, which is not part of
    the script: status [ready], connect enabled, disconnect disabled, the
    placeholder shown, an empty log. *)
Definition fresh_page : State :=
  mkState None None JNull JNull false
    "status ready" "Ready" ["status ready"] false true PlaceholderShown
    "0" false "" false "" false [] "09:00:00" [].

(* ------------------------------------------------------------------------- *)
(** ** Scripts and sample runs of the life cycle *)
(* ------------------------------------------------------------------------- *)

(** Lines 108-125 and 157-184: the channels subscribed to, in order. *)
Definition client_channels : list string :=
  ["user_event"; "calling.user_event"; "signalwire.event"].

Definition session_channels : list string :=
  ["user_event"; "room.joined"; "room.left"; "destroy"].

(** The first subscription that throws, if any. *)
Fixpoint first_throw (on : string -> option JsError) (channels : list string)
  : option JsError :=
  match channels with
  | [] => None
  | ch :: rest =>
      match on ch with
      | Some error => Some error
      | None => first_throw on rest
      end
  end.

(** The first of the six steps of [connect] that a script makes fail, with
    the error it raises: 1 the token (the request fails, the response is
    [null], or it has a truthy [error] field), 2 the client (the
    destination cannot be converted for the notice that precedes it, or the
    SDK rejects), 3 the subscriptions on the client, 4 the dial, 5 the
    subscriptions on the session, 6 the start. [None] when every step
    succeeds. *)
Definition failure_of (sc : ConnectScript) : option (nat * JsError) :=
  match fetch_result sc with
  | inl error => Some (1, error)
  | inr tokenData =>
      if nullish tokenData
      then Some (1, mkError (type_error_message tokenData "error"))
      else if truthy (get_prop tokenData KError)
      then Some (1, match to_string (get_prop tokenData KError) with
                    | Some text => mkError text
                    | None => conversion_error
                    end)
      else
        match to_string (get_prop tokenData KAddress) with
        | None => Some (2, conversion_error)
        | Some _ =>
        match init_result sc with
        | inl error => Some (2, error)
        | inr _ =>
            match first_throw (client_on_result sc) client_channels with
            | Some error => Some (3, error)
            | None =>
                match dial_result sc with
                | inl error => Some (4, error)
                | inr _ =>
                    match first_throw (session_on_result sc) session_channels with
                    | Some error => Some (5, error)
                    | None =>
                        match start_result sc with
                        | inl error => Some (6, error)
                        | inr _ => None
                        end
                    end
                end
            end
        end
        end
  end.

(** The step a call on the outside belongs to. *)
Definition step_of_call (c : Effect) : nat :=
  match c with
  | FetchToken => 1
  | InitClient _ => 2
  | ClientOn _ => 3
  | Dial _ => 4
  | SessionOn _ => 5
  | StartSession => 6
  | Hangup _ => 0
  end.

(** [{token: "tok", address: "/public/agent"}] *)
Definition token_response : JsVal :=
  JObj [("token", JStr "tok"); ("address", JStr "/public/agent")].

(** Every step succeeds, the session handle is [s], and nothing else
    happens meanwhile. *)
Definition all_succeed (s : Session) : ConnectScript :=
  mkConnectScript [] (inr token_response) [] (inr 1) (fun _ => None)
    [] (inr s) (fun _ => None) [] (inr tt).

(** Scripts that fail at step 1 to 6 with the error [error]; during the
    start of the last one [room.joined] arrives first. *)
Definition failing_at (k : nat) (error : JsError) : ConnectScript :=
  mkConnectScript
    [] (if k =? 1 then inl error else inr token_response)%nat
    [] (if k =? 2 then inl error else inr 1)%nat
    (fun ch => if (k =? 3)%nat && String.eqb ch "calling.user_event"
               then Some error else None)
    [] (if k =? 4 then inl error else inr 7)%nat
    (fun ch => if (k =? 5)%nat && String.eqb ch "destroy"
               then Some error else None)
    [RoomJoined] (if k =? 6 then inl error else inr tt)%nat.

(** The dial is rejected with [error]; nothing arrives meanwhile. *)
Definition rejected_dial (error : JsError) : ConnectScript :=
  mkConnectScript [] (inr token_response) [] (inr 1) (fun _ => None)
    [] (inl error) (fun _ => None) [] (inr tt).

(** [{error: "no credentials"}] *)
Definition error_response : JsVal := JObj [("error", JStr "no credentials")].

Definition refused : ConnectScript :=
  mkConnectScript [] (inr error_response) [] (inr 1) (fun _ => None)
    [] (inr 7) (fun _ => None) [] (inr tt).

Definition boom : JsError := mkError "boom".

(** The page once the script has run its two start-up lines. *)
Definition loaded_page : State := startup fresh_page.

Definition quiet_hangup : DisconnectScript := mkDisconnectScript [] (inr tt).

(** The page after a first call of [connect] went through its six steps,
    before [room.joined] arrives. *)
Definition dialed_page : State :=
  fst (connect (all_succeed 7) loaded_page).

(** Or [disconnect] is called before [room.joined] arrives, and waits for
    [hangup]. *)
Definition dialed_hanging_up_page : State := disconnect_click dialed_page.

(** Then [room.joined] arrives: the call is connected. *)
Definition joined_page : State := deliver RoomJoined dialed_page.

(** Then [disconnect] is called and waits for [hangup]. *)
Definition hanging_up_page : State := disconnect_click joined_page.

(* ------------------------------------------------------------------------- *)
(** ** Conditions on pages *)
(* ------------------------------------------------------------------------- *)

(** The page when the script is loaded: the globals as lines 24-34 declare
    them; from the markup, a connect button that is enabled, a disconnect
    button that is disabled, and a status element that shows neither a
    connection nor a teardown. *)
Record well_loaded (page : State) : Prop := mkWellLoaded {
  loaded_client : client page = None;
  loaded_session : roomSession page = None;
  loaded_flag : isConnected page = false;
  loaded_connect : connectDisabled page = false;
  loaded_disconnect : disconnectDisabled page = true;
  loaded_status : connection_state page = Some Idle
}.

(** The buttons follow the flag [isConnected], and the status element
    shows [connected], [disconnected] or [ready] only when the flag agrees. *)
Record consistent (st : State) : Prop := mkConsistent {
  connect_follows : connectDisabled st = isConnected st;
  disconnect_follows : disconnectDisabled st = negb (isConnected st);
  connected_flag : connection_state st = Some Connected -> isConnected st = true;
  disconnected_flag :
    connection_state st = Some Disconnected -> isConnected st = false;
  idle_flag : connection_state st = Some Idle -> isConnected st = false
}.

(** The button rule in the words of the specification, section 4.4:
    "connect enabled iff not Connected; disconnect enabled iff
    Connected". *)
Definition spec_buttons (st : State) : Prop :=
  (connect_enabled st = true <-> connection_state st <> Some Connected)
  /\ (disconnect_enabled st = true <-> connection_state st = Some Connected).

(** The guard of [connect] in the words of the specification, section 4.1:
    "no-op with a logged notice if current state is Connected (or any state
    implying an active session exists)". *)
Definition spec_connect_guard (st : State) : Prop :=
  connection_state st = Some Connected \/ has_session st = true.

(* ------------------------------------------------------------------------- *)
(** ** Further samples *)
(* ------------------------------------------------------------------------- *)

(** The calls [connect] makes when every step succeeds, in program order
    (lines 79, 95, 108-120, 132, 157-181, 189), for the token and the
    destination it took from the response. *)
Definition connect_calls (token destination : JsVal) : list Effect :=
  [FetchToken; InitClient token;
   ClientOn "user_event"; ClientOn "calling.user_event";
   ClientOn "signalwire.event"; Dial destination;
   SessionOn "user_event"; SessionOn "room.joined";
   SessionOn "room.left"; SessionOn "destroy"; StartSession].

(** Nothing arrives while [connect] waits. *)
Definition undisturbed (sc : ConnectScript) : Prop :=
  during_fetch sc = [] /\ during_init sc = []
  /\ during_dial sc = [] /\ during_start sc = [].


(** [{event_type: "user_event", params: {type: "greeting", name: "Ana"}}] *)
Definition enveloped_greeting : JsVal :=
  JObj [("event_type", JStr "user_event"); ("params", greeting_ana)].

(** [{event_type: "call.state", params: {type: "greeting", name: "Ana"}}] *)
Definition enveloped_other : JsVal :=
  JObj [("event_type", JStr "call.state"); ("params", greeting_ana)].

(* ------------------------------------------------------------------------- *)
(** ** Basic facts *)
(* ------------------------------------------------------------------------- *)

Local Open Scope list_scope.

Lemma existsb_eqb_In (t : string) (l : list string) :
  existsb (String.eqb t) l = true <-> In t l.
Proof.
  rewrite existsb_exists. split.
  - intros [x [Hin Heq]]. apply String.eqb_eq in Heq. now subst.
  - intros Hin. exists t. split; [assumption | apply String.eqb_refl].
Qed.

Lemma existsb_eqb_not_In (t : string) (l : list string) :
  ~ In t l -> existsb (String.eqb t) l = false.
Proof.
  intros Hn. destruct (existsb (String.eqb t) l) eqn:E; [|reflexivity].
  apply existsb_eqb_In in E. contradiction.
Qed.

Lemma get_prop_truthy (v : JsVal) (k : Key) :
  get_prop v k <> JUndefined -> truthy v = true.
Proof. destruct v; simpl; congruence. Qed.

Lemma get_prop_str_truthy (v : JsVal) (k : Key) (t : string) :
  get_prop v k = JStr t -> truthy v = true.
Proof. intros H. apply (get_prop_truthy v k). congruence. Qed.

Lemma js_or_absent (d : JsVal) : js_or JUndefined d = d.
Proof. reflexivity. Qed.

Lemma js_or_truthy (v d : JsVal) : truthy v = true -> js_or v d = v.
Proof. unfold js_or. now intros ->. Qed.

Lemma js_or_falsy (v d : JsVal) : truthy v = false -> js_or v d = d.
Proof. unfold js_or. now intros ->. Qed.

(** [normalize] on a payload whose [type] is a string. *)
Lemma normalize_typed (raw : JsVal) (t : string) :
  get_prop (unwrap raw) KType = JStr t ->
  normalize raw =
    if existsb (String.eqb t) internalTypes then None
    else if String.eqb t "greeting" then
      Some (Greeting (js_or (get_prop (unwrap raw) KName) (JStr "Unknown")))
    else if String.eqb t "echo" then
      Some (Echo (js_or (get_prop (unwrap raw) KMessage) (JStr "")))
    else if String.eqb t "counter_updated" then
      Some (CounterUpdated (js_or (get_prop (unwrap raw) KCount) (JNum 0))
                           (js_or (get_prop (unwrap raw) KIncrement) (JNum 1)))
    else Some (Unknown t (unwrap raw)).
Proof.
  intros Ht. unfold normalize.
  rewrite (get_prop_str_truthy _ _ _ Ht), Ht. reflexivity.
Qed.

(** [handleUserEvent] is [normalize] followed by the branch. *)
Lemma handleUserEvent_run_normalize (raw : JsVal) (st : State) :
  handleUserEvent_run raw st =
    match normalize raw with
    | Some ev => reflect_run ev st
    | None => (st, inr tt)
    end.
Proof.
  unfold handleUserEvent_run, normalize, includes.
  remember internalTypes as reserved.
  destruct (truthy (unwrap raw)); simpl; [|reflexivity].
  destruct (get_prop (unwrap raw) KType) as [| | b | n | t | items | fields];
    simpl; try reflexivity.
  change (existsb (is_str (JStr t)) reserved)
    with (existsb (String.eqb t) reserved).
  destruct (existsb (String.eqb t) reserved); [reflexivity|].
  destruct (String.eqb t "greeting"); [reflexivity|].
  destruct (String.eqb t "echo"); [reflexivity|].
  destruct (String.eqb t "counter_updated"); reflexivity.
Qed.

Lemma handleUserEvent_normalize (raw : JsVal) (st : State) :
  handleUserEvent raw st =
    match normalize raw with
    | Some ev => reflect ev st
    | None => st
    end.
Proof.
  unfold handleUserEvent, reflect. rewrite handleUserEvent_run_normalize.
  destruct (normalize raw); reflexivity.
Qed.

(* ------------------------------------------------------------------------- *)
(** ** The event normalizer *)
(* ------------------------------------------------------------------------- *)


(** C2, as the specification states it, fails: on an event that has both a
    [params] and an [event] field the payload is the [event] field, not the
    [params] field, and the event is classified from it. A [params] field
    that is there and holds [null] is not used either. *)
Lemma unwrap_params_first_counterexample :
  (has_prop both_wrappers KParams = true
   /\ spec_unwrap both_wrappers = get_prop both_wrappers KParams
   /\ unwrap both_wrappers <> get_prop both_wrappers KParams
   /\ unwrap both_wrappers = get_prop both_wrappers KEvent
   /\ normalize both_wrappers = Some (Echo (JStr "")))
  /\ (has_prop null_params KParams = true
      /\ spec_unwrap null_params = JNull
      /\ unwrap null_params = null_params
      /\ normalize null_params = Some (Echo (JStr ""))).
Proof. repeat split; try reflexivity. discriminate. Qed.

(** C2, amended. The payload is [raw.event] when that field holds a truthy
    value, also when [raw.params] does; otherwise [raw.params] when that
    holds a truthy value; otherwise [raw] itself. The result is [raw] or one
    of its two fields: nothing is unwrapped twice. *)
Theorem unwrap_event_first (raw : JsVal) :
  (truthy (get_prop raw KEvent) = true -> unwrap raw = get_prop raw KEvent)
  /\ (truthy (get_prop raw KEvent) = false ->
      truthy (get_prop raw KParams) = true ->
      unwrap raw = get_prop raw KParams)
  /\ (truthy (get_prop raw KEvent) = false ->
      truthy (get_prop raw KParams) = false ->
      unwrap raw = raw)
  /\ (unwrap raw = raw \/ unwrap raw = get_prop raw KParams
      \/ unwrap raw = get_prop raw KEvent).
Proof.
  unfold unwrap.
  destruct (truthy (get_prop raw KEvent)) eqn:Ee;
    destruct (truthy (get_prop raw KParams)) eqn:Ep;
    try rewrite (get_prop_truthy raw KEvent)
      by (intros Hu; rewrite Hu in Ee; discriminate);
    try rewrite (get_prop_truthy raw KParams)
      by (intros Hu; rewrite Hu in Ep; discriminate);
    simpl; rewrite ?andb_false_r;
    repeat split; intros; try discriminate; auto.
Qed.

Lemma unwrap_event_first_witness :
  unwrap both_wrappers = JObj [("type", JStr "echo")]
  /\ unwrap nested_params = JObj [("params", JObj [("type", JStr "echo")])]
  /\ unwrap null_params = null_params.
Proof.
  split; [apply (unwrap_event_first both_wrappers); reflexivity|].
  split; [apply (unwrap_event_first nested_params); reflexivity|].
  apply (unwrap_event_first null_params); reflexivity.
Defined.





(* ------------------------------------------------------------------------- *)
(** ** The event log *)
(* ------------------------------------------------------------------------- *)

(** The loop of lines 375-377 keeps the newest [LOG_CAP] children. *)
Lemma trim_newest (l : list LogEntry) : trim l = newest l.
Proof.
  unfold newest. induction l as [|a l IH]; [reflexivity|].
  cbn [trim List.length].
  destruct (Nat.ltb_spec LOG_CAP (S (List.length l))) as [Hlt|Hge].
  - rewrite IH.
    replace (S (List.length l) - LOG_CAP) with (S (List.length l - LOG_CAP))
      by lia.
    reflexivity.
  - replace (S (List.length l) - LOG_CAP) with 0 by lia. reflexivity.
Qed.

Lemma newest_length (l : list LogEntry) : List.length (newest l) <= LOG_CAP.
Proof. unfold newest. rewrite length_skipn. lia. Qed.

(** Dropping from the front leaves the element appended last in place. *)
Lemma newest_snoc (l : list LogEntry) (e : LogEntry) :
  newest (l ++ [e]) = skipn (S (List.length l) - LOG_CAP) l ++ [e].
Proof.
  unfold newest. rewrite length_app, skipn_app. cbn [List.length].
  replace (List.length l + 1) with (S (List.length l)) by lia.
  replace (S (List.length l) - LOG_CAP - List.length l) with 0
    by (unfold LOG_CAP; lia).
  reflexivity.
Qed.

(** Trimming after each append is trimming once at the end. *)
Lemma newest_newest_snoc (l : list LogEntry) (e : LogEntry) :
  newest (newest l ++ [e]) = newest (l ++ [e]).
Proof.
  rewrite !newest_snoc. f_equal.
  unfold newest. rewrite length_skipn, skipn_skipn. f_equal.
  unfold LOG_CAP. lia.
Qed.

Lemma eventLog_logEvent (type msg : string) (st : State) :
  eventLog (logEvent type msg st)
  = newest (eventLog st ++ [mkLogEntry (wallClock st) type msg]).
Proof. unfold logEvent. cbn. apply trim_newest. Qed.

Lemma wallClock_logEvent (type msg : string) (st : State) :
  wallClock (logEvent type msg st) = wallClock st.
Proof. reflexivity. Qed.

Lemma wallClock_append_all (entries : list (string * string)) (st : State) :
  wallClock (append_all entries st) = wallClock st.
Proof.
  revert st. induction entries as [|e es IH]; intros st; [reflexivity|].
  cbn. unfold append_all in IH. now rewrite IH.
Qed.

(** A run of appends leaves the newest [LOG_CAP] of everything appended. *)
Lemma eventLog_append_all (entries : list (string * string)) (st : State) :
  eventLog (append_all entries st)
  = match entries with
    | [] => eventLog st
    | _ :: _ => newest (eventLog st ++ map (entry_of st) entries)
    end.
Proof.
  induction entries as [|e es IH] using rev_ind; [reflexivity|].
  unfold append_all in *. rewrite fold_left_app. cbn [fold_left].
  rewrite eventLog_logEvent.
  change (fold_left (fun s e0 => logEvent (fst e0) (snd e0) s) es st)
    with (append_all es st).
  rewrite wallClock_append_all. unfold append_all. rewrite IH.
  destruct es as [|e' es'].
  - cbn [app map]. reflexivity.
  - cbn [app]. rewrite newest_newest_snoc.
    change (e' :: es' ++ [e]) with ((e' :: es') ++ [e]).
    rewrite map_app, app_assoc. reflexivity.
Qed.

Lemma logEvent_newest_last (type msg : string) (st : State) :
  exists older,
    eventLog (logEvent type msg st)
    = older ++ [mkLogEntry (wallClock st) type msg].
Proof. rewrite eventLog_logEvent, newest_snoc. eauto. Qed.

(** C4. After every [logEvent] the log holds at most 50 entries; what the
    call removes is a prefix of the log (the oldest entries), and the new
    entry is the last one. Fifty-one appends from an empty log leave
    exactly 50 entries: the 2nd to the 51st, in order. *)
Theorem event_log_capped_fifo :
  (forall type msg st, List.length (eventLog (logEvent type msg st)) <= 50)
  /\ (forall type msg st, exists evicted kept,
        eventLog st = evicted ++ kept
        /\ eventLog (logEvent type msg st)
           = kept ++ [mkLogEntry (wallClock st) type msg]
        /\ List.length evicted = List.length (eventLog st) + 1 - 50)
  /\ (forall entries st,
        eventLog st = [] -> List.length entries = 51 ->
        List.length (eventLog (append_all entries st)) = 50
        /\ eventLog (append_all entries st) = map (entry_of st) (tl entries)
        /\ hd_error (eventLog (append_all entries st))
           = option_map (entry_of st) (nth_error entries 1)
        /\ nth_error (eventLog (append_all entries st)) 49
           = option_map (entry_of st) (nth_error entries 50)).
Proof.
  split; [|split].
  - intros type msg st. rewrite eventLog_logEvent. apply newest_length.
  - intros type msg st.
    exists (firstn (S (List.length (eventLog st)) - LOG_CAP) (eventLog st)),
           (skipn (S (List.length (eventLog st)) - LOG_CAP) (eventLog st)).
    split; [now rewrite firstn_skipn|].
    split; [rewrite eventLog_logEvent; apply newest_snoc|].
    rewrite length_firstn. unfold LOG_CAP. lia.
  - intros entries st Hempty Hlen.
    rewrite eventLog_append_all, Hempty.
    destruct entries as [|e1 rest]; [discriminate|].
    cbn [app tl]. unfold newest. rewrite length_map, Hlen.
    change (51 - LOG_CAP) with 1. cbn [skipn map].
    cbn [List.length] in Hlen.
    split; [rewrite length_map; lia|].
    split; [reflexivity|].
    split.
    + destruct rest; [discriminate|]. reflexivity.
    + change (nth_error (e1 :: rest) 50) with (nth_error rest 49).
      apply nth_error_map.
Qed.

Lemma event_log_capped_fifo_witness :
  List.length (eventLog (append_all fifty_one fresh_page)) = 50
  /\ hd_error (eventLog (append_all fifty_one fresh_page))
     = Some (mkLogEntry "09:00:00" "system" "2")
  /\ nth_error (eventLog (append_all fifty_one fresh_page)) 49
     = Some (mkLogEntry "09:00:00" "system" "51").
Proof.
  destruct (proj2 (proj2 event_log_capped_fifo) fifty_one fresh_page
              eq_refl eq_refl) as [Hlen [_ [Hhd Hlast]]].
  split; [exact Hlen|]. split; [exact Hhd | exact Hlast].
Defined.

(** C7. A payload whose [type] is a string that is neither reserved nor one
    of the three recognized types gives [Unknown] with that string, and the
    handler appends an entry of kind [unknown] that shows it. *)
Theorem normalize_unknown (raw : JsVal) (t : string) :
  get_prop (unwrap raw) KType = JStr t ->
  ~ In t internalTypes ->
  ~ In t ["greeting"; "echo"; "counter_updated"] ->
  normalize raw = Some (Unknown t (unwrap raw))
  /\ forall st, exists older,
       eventLog (handleUserEvent raw st)
       = older ++ [mkLogEntry (wallClock st) "unknown" ("Unknown event: " ++ t)].
Proof.
  intros Ht Hres Hrec.
  assert (Hn : normalize raw = Some (Unknown t (unwrap raw))).
  { rewrite (normalize_typed raw t Ht), (existsb_eqb_not_In _ _ Hres).
    assert (Hg : String.eqb t "greeting" = false)
      by (apply String.eqb_neq; intros ->; apply Hrec; simpl; auto).
    assert (He : String.eqb t "echo" = false)
      by (apply String.eqb_neq; intros ->; apply Hrec; simpl; auto).
    assert (Hc : String.eqb t "counter_updated" = false)
      by (apply String.eqb_neq; intros ->; apply Hrec; simpl; auto).
    now rewrite Hg, He, Hc. }
  split; [exact Hn|].
  intros st. rewrite handleUserEvent_normalize, Hn. cbn [reflect].
  apply logEvent_newest_last.
Qed.

Lemma normalize_unknown_witness :
  normalize foobar = Some (Unknown "foobar" foobar)
  /\ forall st, exists older,
       eventLog (handleUserEvent foobar st)
       = older ++ [mkLogEntry (wallClock st) "unknown" "Unknown event: foobar"].
Proof.
  apply (normalize_unknown foobar "foobar").
  - reflexivity.
  - intros H. apply existsb_eqb_In in H. vm_compute in H. discriminate.
  - intros H. apply existsb_eqb_In in H. vm_compute in H. discriminate.
Defined.

(* ------------------------------------------------------------------------- *)
(** ** Teardown *)
(* ------------------------------------------------------------------------- *)

Lemma connection_state_ext (st st' : State) :
  statusClass st = statusClass st' -> connection_state st = connection_state st'.
Proof. unfold connection_state. now intros ->. Qed.

Lemma connection_state_updateStatus (s : ConnectionState) (text : string)
  (st : State) :
  connection_state (updateStatus (state_name s) text st) = Some s.
Proof. destruct s; reflexivity. Qed.

Lemma handleDisconnect_idem (st : State) :
  handleDisconnect (handleDisconnect st) = handleDisconnect st.
Proof. reflexivity. Qed.

Lemma handleDisconnect_logEvent (type msg : string) (st : State) :
  handleDisconnect (logEvent type msg (handleDisconnect st))
  = logEvent type msg (handleDisconnect st).
Proof. destruct st. reflexivity. Qed.

Lemma handleDisconnect_settled (st : State) :
  connection_state (handleDisconnect st) = Some Disconnected
  /\ roomSession (handleDisconnect st) = None
  /\ isConnected (handleDisconnect st) = false
  /\ connect_enabled (handleDisconnect st) = true
  /\ disconnect_enabled (handleDisconnect st) = false.
Proof. repeat split. Qed.

(** After [disconnect] there is neither a session nor a connection,
    whatever the state it was called in. *)
Lemma disconnect_cleared (sc : DisconnectScript) (st : State) :
  isConnected (disconnect sc st) = false /\ roomSession (disconnect sc st) = None.
Proof.
  unfold disconnect, disconnect_enter, has_session.
  destruct (isConnected st) eqn:Ec.
  - cbn -[hangup_step]. destruct (hangup_step sc _) as [st' r]. split; reflexivity.
  - destruct (roomSession st) eqn:Es.
    + cbn -[hangup_step]. destruct (hangup_step sc _) as [st' r]. split; reflexivity.
    + cbn. now rewrite Ec, Es.
Qed.

Lemma disconnect_without_session (sc : DisconnectScript) (st : State) :
  isConnected st = false -> roomSession st = None ->
  disconnect sc st = logEvent "system" "Not connected" st.
Proof.
  intros Hc Hs. unfold disconnect, disconnect_enter, has_session.
  now rewrite Hc, Hs.
Qed.

Lemma disconnect_with_session (sc : DisconnectScript) (st : State) :
  isConnected st = true \/ roomSession st <> None ->
  exists st', disconnect sc st = handleDisconnect st'.
Proof.
  intros H. unfold disconnect, disconnect_enter, has_session.
  destruct (isConnected st) eqn:Ec.
  - cbn -[hangup_step]. destruct (hangup_step sc _) as [st' r]. eauto.
  - destruct (roomSession st) eqn:Es.
    + cbn -[hangup_step]. destruct (hangup_step sc _) as [st' r]. eauto.
    + destruct H; congruence.
Qed.

(** C5. The teardown path run a second time gives the state the first run
    gave; [room.left] followed by [destroy] (or the reverse) adds the
    second handler's log line and nothing else; a second [disconnect]
    finds neither session nor connection, logs a notice and changes
    nothing else; after it the session handle is clear and the state is
    [Disconnected]. The outcome of [hangup] does not matter. *)
Theorem teardown_idempotent :
  (forall st, handleDisconnect (handleDisconnect st) = handleDisconnect st)
  /\ (forall st,
        connection_state (handleDisconnect st) = Some Disconnected
        /\ roomSession (handleDisconnect st) = None
        /\ isConnected (handleDisconnect st) = false)
  /\ (forall st,
        on_destroy (on_room_left st)
        = logEvent "system" "Session destroyed" (on_room_left st)
        /\ on_room_left (on_destroy st)
           = logEvent "system" "Disconnected from agent" (on_destroy st))
  /\ (forall sc1 sc2 st,
        isConnected st = true \/ roomSession st <> None ->
        connection_state (disconnect sc1 st) = Some Disconnected
        /\ disconnect sc2 (disconnect sc1 st)
           = logEvent "system" "Not connected" (disconnect sc1 st)
        /\ connection_state (disconnect sc2 (disconnect sc1 st))
           = Some Disconnected
        /\ roomSession (disconnect sc2 (disconnect sc1 st)) = None
        /\ isConnected (disconnect sc2 (disconnect sc1 st)) = false)
  /\ (forall sc1 sc2 st,
        disconnect sc2 (disconnect sc1 st)
        = logEvent "system" "Not connected" (disconnect sc1 st))
  /\ (forall during r1 r2 st,
        disconnect (mkDisconnectScript during r1) st
        = disconnect (mkDisconnectScript during r2) st).
Proof.
  split; [exact handleDisconnect_idem|].
  split; [intros st; repeat split|].
  split; [intros st; unfold on_destroy, on_room_left;
          split; apply handleDisconnect_logEvent|].
  assert (Hsecond : forall sc1 sc2 st,
             disconnect sc2 (disconnect sc1 st)
             = logEvent "system" "Not connected" (disconnect sc1 st)).
  { intros sc1 sc2 st. destruct (disconnect_cleared sc1 st) as [Hc Hs].
    now apply disconnect_without_session. }
  split; [|split; [exact Hsecond|]].
  - intros sc1 sc2 st Hactive.
    destruct (disconnect_with_session sc1 st Hactive) as [st' Hst'].
    rewrite Hsecond, Hst'. repeat split.
  - intros during r1 r2 st. unfold disconnect, hangup_step.
    destruct (disconnect_enter st) as [st1 [|]]; [|reflexivity].
    unfold bind, gets. destruct (roomSession st1); reflexivity.
Qed.

Lemma teardown_idempotent_witness :
  connection_state (disconnect quiet_hangup joined_page) = Some Disconnected
  /\ disconnect quiet_hangup (disconnect quiet_hangup joined_page)
     = logEvent "system" "Not connected" (disconnect quiet_hangup joined_page)
  /\ connection_state (disconnect quiet_hangup (disconnect quiet_hangup joined_page))
     = Some Disconnected
  /\ roomSession (disconnect quiet_hangup (disconnect quiet_hangup joined_page))
     = None
  /\ isConnected (disconnect quiet_hangup (disconnect quiet_hangup joined_page))
     = false.
Proof.
  apply (proj1 (proj2 (proj2 (proj2 teardown_idempotent)))
           quiet_hangup quiet_hangup joined_page).
  left. reflexivity.
Defined.

(* ------------------------------------------------------------------------- *)
(** ** Runs of connect and disconnect are turns of the event loop *)
(* ------------------------------------------------------------------------- *)

Lemma steps_trans (a b c : State) : steps a b -> steps b c -> steps a c.
Proof.
  intros Hab Hbc. induction Hbc as [|b c d _ IH Hstep]; [assumption|].
  eapply steps_next; [apply IH; assumption | exact Hstep].
Qed.

Lemma steps_one (a b : State) : step a b -> steps a b.
Proof. intros H. eapply steps_next; [apply steps_refl | exact H]. Qed.

Lemma reachable_steps (page st st' : State) :
  reachable page st -> steps st st' -> reachable page st'.
Proof.
  intros Hr Hs. induction Hs as [|a b c _ IH Hstep]; [assumption|].
  eapply reach_step; [apply IH; assumption | exact Hstep].
Qed.

Lemma steps_deliver_all (ns : list Notification) (st : State) :
  steps st (deliver_all ns st).
Proof.
  revert st. induction ns as [|n ns IH]; intros st; [apply steps_refl|].
  cbn. eapply steps_trans; [apply steps_one, step_deliver | apply IH].
Qed.

Lemma steps_await {A} (ns : list Notification) (r : JsError + A)
  (k : A -> Task unit) (st : State) :
  (forall a s, steps s (resume (k a) s)) ->
  steps st (resume (x <- await ns r ;; k x) st).
Proof.
  intros Hk. unfold resume, bind, await.
  eapply steps_trans; [apply (steps_deliver_all ns)|].
  destruct r as [error | a].
  - apply steps_one. apply (step_connect_resume (throw error)), piece_rejected.
  - apply Hk.
Qed.

Lemma steps_piece_await {A} (piece : Task unit) (ns : list Notification)
  (r : JsError + A) (k : A -> Task unit) (st : State) :
  connect_piece piece ->
  (forall a s, steps s (resume (k a) s)) ->
  steps st (resume (piece ;; x <- await ns r ;; k x) st).
Proof.
  intros Hp Hk.
  pose proof (step_connect_resume piece st Hp) as Hstep.
  unfold resume in Hstep |- *. unfold bind at 1.
  destruct (piece st) as [s1 [error | []]].
  - apply steps_one, Hstep.
  - eapply steps_trans; [apply steps_one, Hstep|].
    apply (steps_await ns r k s1 Hk).
Qed.

Lemma fst_connect (sc : ConnectScript) (st : State) :
  fst (connect sc st)
  = match connect_enter st with
    | (st', false) => st'
    | (st', true) => resume (connect_body sc) st'
    end.
Proof.
  unfold connect, resume, connect_catch.
  destruct (connect_enter st) as [st' [|]]; [|reflexivity].
  destruct (connect_body sc st') as [s [error|u]]; [|reflexivity].
  destruct (connect_catch_run error s) as [s' [thrown|u]]; reflexivity.
Qed.

Lemma steps_connect (sc : ConnectScript) (st : State) :
  steps st (fst (connect sc st)).
Proof.
  rewrite fst_connect.
  pose proof (step_connect st) as Hclick. unfold connect_click in Hclick.
  destruct (connect_enter st) as [st' [|]]; [|apply steps_one, Hclick].
  eapply steps_trans; [apply steps_one, Hclick|].
  change (resume (connect_body sc) st')
    with (resume (tokenData <- await (during_fetch sc) (fetch_result sc) ;;
                  token_step tokenData ;;
                  c <- await (during_init sc) (init_result sc) ;;
                  client_step (client_on_result sc) c ;;
                  s <- await (during_dial sc) (dial_result sc) ;;
                  session_step (session_on_result sc) s ;;
                  _ <- await (during_start sc) (start_result sc) ;;
                  started_step)
            (resume (perform FetchToken) st')).
  apply steps_await. intros tokenData s1.
  apply steps_piece_await; [apply piece_token|]. intros c s2.
  apply steps_piece_await; [apply piece_client|]. intros s s3.
  apply steps_piece_await; [apply piece_session|]. intros _ s4.
  apply steps_one, step_connect_resume, piece_started.
Qed.

Lemma steps_disconnect (sc : DisconnectScript) (st : State) :
  steps st (disconnect sc st).
Proof.
  pose proof (step_disconnect st) as Hclick.
  unfold disconnect_click in Hclick. unfold disconnect, hangup_step.
  destruct (disconnect_enter st) as [st' [|]]; [|apply steps_one, Hclick].
  unfold bind, gets, perform, call, await.
  destruct (roomSession st') as [s|]; [|apply steps_one, Hclick].
  eapply steps_trans; [apply steps_one, Hclick|].
  eapply steps_trans; [apply steps_deliver_all|].
  apply steps_one, step_disconnect_resume.
Qed.

(* ------------------------------------------------------------------------- *)
(** ** The buttons, the flag and the status element *)
(* ------------------------------------------------------------------------- *)

(** A turn that writes neither the flag nor the buttons, and leaves the
    status element alone or sets it to a transitional state. *)
Lemma consistent_frame (st st' : State) :
  consistent st ->
  isConnected st' = isConnected st ->
  connectDisabled st' = connectDisabled st ->
  disconnectDisabled st' = disconnectDisabled st ->
  statusClass st' = statusClass st
  \/ connection_state st' = Some Connecting
  \/ connection_state st' = Some Disconnecting ->
  consistent st'.
Proof.
  intros [Hc Hd Hcon Hdis Hidle] Hflag Hcb Hdb Hstatus.
  constructor; rewrite ?Hflag, ?Hcb, ?Hdb; try assumption.
  all: destruct Hstatus as [Hsame | [Hnew | Hnew]];
    [ rewrite (connection_state_ext st' st Hsame); assumption
    | rewrite Hnew; discriminate
    | rewrite Hnew; discriminate ].
Qed.

Lemma consistent_handleDisconnect (st : State) : consistent (handleDisconnect st).
Proof.
  constructor; [reflexivity | reflexivity | intros Hs | intros Hs | intros Hs];
    try reflexivity; discriminate Hs.
Qed.

Lemma consistent_on_room_joined (st : State) : consistent (on_room_joined st).
Proof.
  unfold on_room_joined. cbn -[logEvent].
  destruct (placeholder _);
    (constructor;
     [reflexivity | reflexivity | intros Hs | intros Hs | intros Hs];
     try reflexivity; discriminate Hs).
Qed.

(** The [catch] block either throws before it writes anything, or ends
    with the teardown. *)
Lemma connect_catch_cases (error : JsError) (st : State) :
  (exists thrown, connect_catch_run error st = (st, inl thrown))
  \/ (exists text,
        nullish error = false
        /\ to_string (get_prop error KMessage) = Some text
        /\ connect_catch_run error st
           = (handleDisconnect
                (updateStatus "error" "Connection failed"
                   (logEvent "error" ("Connection failed: " ++ text) st)),
              inr tt)).
Proof.
  unfold connect_catch_run, member, convert, bind, throw, ret, act.
  destruct (nullish error); [left; eauto|].
  destruct (to_string (get_prop error KMessage)) as [text|];
    [right; exists text; repeat split | left; eauto].
Qed.

Lemma consistent_connect_catch (error : JsError) (st : State) :
  consistent st -> consistent (connect_catch error st).
Proof.
  intros H. unfold connect_catch.
  destruct (connect_catch_cases error st) as [[thrown E] | [text [_ [_ E]]]];
    rewrite E; [exact H | apply consistent_handleDisconnect].
Qed.

Lemma consistent_reflect (ev : ApplicationEvent) (st : State) :
  consistent st -> consistent (reflect ev st).
Proof.
  intros H. unfold reflect, reflect_run, convert, bind, throw, ret, act.
  destruct ev as [name | message | count increment | rawType data].
  - destruct (to_string name); [|exact H].
    apply (consistent_frame st); try assumption; try reflexivity.
    left; reflexivity.
  - destruct (to_string message); [|exact H].
    apply (consistent_frame st); try assumption; try reflexivity.
    left; reflexivity.
  - destruct (to_string count); [|exact H].
    destruct (to_string increment);
      (apply (consistent_frame st); try assumption; try reflexivity;
       left; reflexivity).
  - apply (consistent_frame st); try assumption; try reflexivity.
    left; reflexivity.
Qed.

Lemma consistent_handleUserEvent (params : JsVal) (st : State) :
  consistent st -> consistent (handleUserEvent params st).
Proof.
  intros H. rewrite handleUserEvent_normalize.
  destruct (normalize params); [now apply consistent_reflect | assumption].
Qed.

Lemma consistent_deliver (n : Notification) (st : State) :
  consistent st -> consistent (deliver n st).
Proof.
  intros H. destruct n as [p | p | p | p | | | | d | now]; cbn [deliver].
  - now apply consistent_handleUserEvent.
  - now apply consistent_handleUserEvent.
  - unfold on_signalwire_event. destruct (nullish p); [assumption|].
    destruct (is_str _ _); [now apply consistent_handleUserEvent | assumption].
  - now apply consistent_handleUserEvent.
  - apply consistent_on_room_joined.
  - apply consistent_handleDisconnect.
  - apply consistent_handleDisconnect.
  - apply (consistent_frame st); try assumption;
      destruct d; try reflexivity; left; reflexivity.
  - apply (consistent_frame st); try assumption; try reflexivity.
    left; reflexivity.
Qed.

(** What a piece of [connect] writes of the flag, the buttons and the
    status, whether it runs to its end or throws. *)
Lemma piece_frame (piece : Task unit) (st : State) :
  connect_piece piece ->
  isConnected (fst (piece st)) = isConnected st
  /\ connectDisabled (fst (piece st)) = connectDisabled st
  /\ disconnectDisabled (fst (piece st)) = disconnectDisabled st
  /\ (statusClass (fst (piece st)) = statusClass st
      \/ connection_state (fst (piece st)) = Some Connecting).
Proof.
  intros Hp. destruct Hp as [tokenData | on c | on s | | error].
  - unfold token_step, member, convert, bind, throw, ret, act, gets,
      perform, call.
    destruct (nullish tokenData);
      [repeat split; left; reflexivity|].
    destruct (truthy (get_prop tokenData KError)).
    { destruct (to_string (get_prop tokenData KError));
        repeat split; left; reflexivity. }
    cbn -[trim].
    destruct (to_string (get_prop tokenData KAddress)); cbn -[trim];
      repeat split; (left; reflexivity) || (right; reflexivity).
  - unfold client_step, bind, act, gets, perform, call.
    cbn -[trim].
    destruct (on "user_event"); cbn -[trim];
      [repeat split; left; reflexivity|].
    destruct (on "calling.user_event"); cbn -[trim];
      [repeat split; left; reflexivity|].
    destruct (on "signalwire.event"); cbn -[trim];
      repeat split; (left; reflexivity) || (right; reflexivity).
  - unfold session_step, bind, act, gets, perform, call.
    cbn -[trim].
    destruct (on "user_event"); cbn -[trim];
      [repeat split; left; reflexivity|].
    destruct (on "room.joined"); cbn -[trim];
      [repeat split; left; reflexivity|].
    destruct (on "room.left"); cbn -[trim];
      [repeat split; left; reflexivity|].
    destruct (on "destroy"); cbn -[trim];
      repeat split; left; reflexivity.
  - repeat split. left; reflexivity.
  - repeat split. left; reflexivity.
Qed.

Lemma consistent_resume (piece : Task unit) (st : State) :
  connect_piece piece -> consistent st -> consistent (resume piece st).
Proof.
  intros Hp H.
  destruct (piece_frame piece st Hp) as [Hf [Hc [Hd Hs]]].
  assert (H' : consistent (fst (piece st))).
  { apply (consistent_frame st); try assumption.
    destruct Hs; [left | right; left]; assumption. }
  unfold resume. destruct (piece st) as [st' [error | u]]; cbn [fst] in H'.
  - now apply consistent_connect_catch.
  - exact H'.
Qed.

Lemma consistent_connect_click (st : State) :
  consistent st -> consistent (connect_click st).
Proof.
  intros H. unfold connect_click, connect_enter.
  destruct (isConnected st) eqn:Ec.
  - apply (consistent_frame st); try assumption; try reflexivity.
    left; reflexivity.
  - apply (consistent_frame st); try assumption; cbn; try reflexivity.
    right; left; reflexivity.
Qed.

Lemma consistent_disconnect_click (st : State) :
  consistent st -> consistent (disconnect_click st).
Proof.
  intros H. unfold disconnect_click, disconnect_enter.
  destruct (negb (isConnected st) && negb (has_session st)).
  - apply (consistent_frame st); try assumption; try reflexivity.
    left; reflexivity.
  - cbn -[logEvent handleDisconnect].
    destruct (roomSession _); [|apply consistent_handleDisconnect].
    apply (consistent_frame st); try assumption; try reflexivity.
    right; right; reflexivity.
Qed.

Lemma consistent_step (st st' : State) :
  step st st' -> consistent st -> consistent st'.
Proof.
  intros Hstep H. destruct Hstep.
  - now apply consistent_deliver.
  - now apply consistent_connect_click.
  - now apply consistent_resume.
  - now apply consistent_disconnect_click.
  - apply consistent_handleDisconnect.
Qed.

Lemma consistent_well_loaded (page : State) :
  well_loaded page -> consistent (startup page).
Proof.
  intros [_ _ Hflag Hcb Hdb Hstatus].
  apply (consistent_frame page); try reflexivity; [|left; reflexivity].
  constructor; rewrite ?Hcb, ?Hdb, ?Hflag, ?Hstatus;
    try reflexivity; discriminate.
Qed.

(** Every state the page goes through is consistent. *)
Lemma reachable_consistent (page st : State) :
  well_loaded page -> reachable page st -> consistent st.
Proof.
  intros Hpage Hr. induction Hr as [|st st' _ IH Hstep].
  - now apply consistent_well_loaded.
  - exact (consistent_step st st' Hstep IH).
Qed.

Lemma well_loaded_fresh_page : well_loaded fresh_page.
Proof. constructor; reflexivity. Qed.

Lemma reachable_dialed_page : reachable fresh_page dialed_page.
Proof.
  apply (reachable_steps fresh_page (startup fresh_page));
    [apply reach_startup | apply steps_connect].
Qed.

Lemma reachable_joined_page : reachable fresh_page joined_page.
Proof.
  eapply reach_step; [apply reachable_dialed_page | apply step_deliver].
Qed.

Lemma reachable_hanging_up_page : reachable fresh_page hanging_up_page.
Proof.
  eapply reach_step; [apply reachable_joined_page | apply step_disconnect].
Qed.

(* ------------------------------------------------------------------------- *)
(** ** connect *)
(* ------------------------------------------------------------------------- *)

(** How the [try] block ends depends on the script alone. *)
Lemma connect_body_outcome (sc : ConnectScript) (st : State) :
  snd (connect_body sc st)
  = match failure_of sc with
    | Some (_, error) => inl error
    | None => inr tt
    end.
Proof.
  unfold connect_body, failure_of, token_step, client_step, session_step,
    started_step, first_throw, client_channels, session_channels,
    member, convert, bind, await, perform, call, act, gets, throw, ret.
  destruct (fetch_result sc) as [e | tokenData]; [reflexivity|].
  destruct (nullish tokenData); [reflexivity|].
  destruct (truthy (get_prop tokenData KError)).
  { destruct (to_string (get_prop tokenData KError)) as [text|];
      reflexivity. }
  cbn [currentDestination set_credentials fst snd].
  destruct (to_string (get_prop tokenData KAddress)) as [text|];
    [|reflexivity].
  destruct (init_result sc) as [e | c]; [reflexivity|].
  destruct (client_on_result sc "user_event"); [reflexivity|].
  destruct (client_on_result sc "calling.user_event"); [reflexivity|].
  destruct (client_on_result sc "signalwire.event"); [reflexivity|].
  destruct (dial_result sc) as [e | s]; [reflexivity|].
  destruct (session_on_result sc "user_event"); [reflexivity|].
  destruct (session_on_result sc "room.joined"); [reflexivity|].
  destruct (session_on_result sc "room.left"); [reflexivity|].
  destruct (session_on_result sc "destroy"); [reflexivity|].
  destruct (start_result sc) as [e | []]; reflexivity.
Qed.

Lemma failure_of_step (sc : ConnectScript) (k : nat) (error : JsError) :
  failure_of sc = Some (k, error) -> 1 <= k <= 6.
Proof.
  unfold failure_of.
  repeat match goal with
         | |- context [match ?x with _ => _ end] => destruct x
         end;
    intros H; inversion H; lia.
Qed.

(** A property of the page that the notifications of a script and the
    pieces of [connect] keep is kept by the [try] block, whether it runs
    to its end or throws. *)
Lemma connect_body_keeps (P : State -> Prop) (sc : ConnectScript) :
  (forall ns st,
      In ns [during_fetch sc; during_init sc; during_dial sc; during_start sc] ->
      P st -> P (deliver_all ns st)) ->
  (forall piece st, connect_piece piece -> P st -> P (fst (piece st))) ->
  (forall st, P st -> P (record_effect FetchToken st)) ->
  forall st, P st -> P (fst (connect_body sc st)).
Proof.
  intros Hd Hp He st H.
  assert (Hawait : forall A ns (r : JsError + A) (k : A -> Task unit) s,
             In ns [during_fetch sc; during_init sc; during_dial sc;
                    during_start sc] ->
             (forall a s', P s' -> P (fst (k a s'))) ->
             P s -> P (fst ((x <- await ns r ;; k x) s))).
  { intros A ns r k s Hin Hk Hs. unfold bind, await.
    destruct r as [e | a]; [apply Hd; assumption|].
    apply Hk, Hd; assumption. }
  assert (Hpiece : forall A piece ns (r : JsError + A) (k : A -> Task unit) s,
             connect_piece piece ->
             In ns [during_fetch sc; during_init sc; during_dial sc;
                    during_start sc] ->
             (forall a s', P s' -> P (fst (k a s'))) ->
             P s -> P (fst ((piece ;; x <- await ns r ;; k x) s))).
  { intros A piece ns r k s Hpc Hin Hk Hs.
    pose proof (Hp piece s Hpc Hs) as Hs'. unfold bind at 1.
    destruct (piece s) as [s' [e | []]]; [exact Hs'|].
    apply Hawait; assumption. }
  unfold connect_body.
  change ((perform FetchToken ;;
           tokenData <- await (during_fetch sc) (fetch_result sc) ;;
           token_step tokenData ;;
           c <- await (during_init sc) (init_result sc) ;;
           client_step (client_on_result sc) c ;;
           s <- await (during_dial sc) (dial_result sc) ;;
           session_step (session_on_result sc) s ;;
           _ <- await (during_start sc) (start_result sc) ;; started_step) st)
    with ((tokenData <- await (during_fetch sc) (fetch_result sc) ;;
           token_step tokenData ;;
           c <- await (during_init sc) (init_result sc) ;;
           client_step (client_on_result sc) c ;;
           s <- await (during_dial sc) (dial_result sc) ;;
           session_step (session_on_result sc) s ;;
           _ <- await (during_start sc) (start_result sc) ;; started_step)
            (record_effect FetchToken st)).
  apply Hawait; [simpl; auto | | apply He, H].
  intros tokenData s1 H1.
  apply Hpiece; [apply piece_token | simpl; auto | | exact H1].
  intros c s2 H2.
  apply Hpiece; [apply piece_client | simpl; auto | | exact H2].
  intros s s3 H3.
  apply Hpiece; [apply piece_session | simpl; auto | | exact H3].
  intros _ s4 H4. apply (Hp started_step s4 piece_started H4).
Qed.

Lemma connection_state_class (st : State) (s : ConnectionState) :
  connection_state st = Some s ->
  statusClass st = ("status " ++ state_name s)%string.
Proof.
  unfold connection_state. intros H. apply find_some in H.
  destruct H as [_ H]. now apply String.eqb_eq in H.
Qed.

(** No handler sets the status to [error]. *)
Lemma deliver_not_error (n : Notification) (st : State) :
  statusClass st <> "status error" ->
  statusClass (deliver n st) <> "status error".
Proof.
  intros H.
  assert (Hu : forall p, statusClass (handleUserEvent p st) <> "status error").
  { intros p. rewrite handleUserEvent_normalize.
    destruct (normalize p) as [ev|]; [|exact H].
    unfold reflect, reflect_run, convert, bind, throw, ret, act.
    destruct ev as [name | message | count increment | rawType data].
    - destruct (to_string name); exact H.
    - destruct (to_string message); exact H.
    - destruct (to_string count); [|exact H].
      destruct (to_string increment); exact H.
    - exact H. }
  destruct n as [p | p | p | p | | | | d | now]; cbn [deliver];
    try apply Hu.
  - unfold on_signalwire_event. destruct (nullish p); [exact H|].
    destruct (is_str _ _); [apply Hu | exact H].
  - unfold on_room_joined. cbn -[trim].
    destruct (placeholder st); discriminate.
  - discriminate.
  - discriminate.
  - destruct d; exact H.
  - exact H.
Qed.

Lemma deliver_all_not_error (ns : list Notification) (st : State) :
  statusClass st <> "status error" ->
  statusClass (deliver_all ns st) <> "status error".
Proof.
  revert st. induction ns as [|n ns IH]; intros st H; [exact H|].
  cbn [deliver_all fold_left]. apply IH, deliver_not_error, H.
Qed.

(** When the [try] block throws, the status is not [error]. *)
Lemma connect_body_not_error (sc : ConnectScript) (st : State) :
  statusClass st <> "status error" ->
  statusClass (fst (connect_body sc st)) <> "status error".
Proof.
  apply (connect_body_keeps (fun s => statusClass s <> "status error")).
  - intros ns s _. apply deliver_all_not_error.
  - intros piece s Hp H.
    destruct (piece_frame piece s Hp) as [_ [_ [_ [Hs | Hs]]]].
    + now rewrite Hs.
    + rewrite (connection_state_class _ _ Hs). discriminate.
  - intros s H. exact H.
Qed.

(** How [connect] ends when the guard lets it go on. *)
Lemma connect_run (sc : ConnectScript) (st : State) :
  isConnected st = false ->
  connect sc st
  = let entered :=
      logEvent "system" "Fetching authentication token..."
        (updateStatus "connecting" "Getting token..." st) in
    match failure_of sc with
    | None => (fst (connect_body sc entered), Completed)
    | Some (_, error) =>
        match connect_catch_run error (fst (connect_body sc entered)) with
        | (final, inr _) => (final, Failed error)
        | (final, inl thrown) => (final, Rejected thrown)
        end
    end.
Proof.
  intros Hflag. unfold connect, connect_enter. rewrite Hflag. cbv zeta.
  pose proof (connect_body_outcome sc
                (logEvent "system" "Fetching authentication token..."
                   (updateStatus "connecting" "Getting token..." st))) as Hout.
  destruct (connect_body sc _) as [failed r]. cbn [fst snd] in *. subst r.
  destruct (failure_of sc) as [[k error]|]; reflexivity.
Qed.

(** C3, where the code departs from it. When the value a failed step
    throws or rejects with is [null] or [undefined], or its [message]
    cannot be converted to text, line 195 throws inside the [catch] block:
    the promise of [connect] is rejected, nothing is logged, the status is
    not set to [Error] and the teardown path does not run; the page stays
    as the failure left it. When nothing else arrived meanwhile, that is
    with the status [Connecting]. *)
Theorem connect_failure_uncaught (sc : ConnectScript) (st : State)
  (k : nat) (error : JsError) :
  isConnected st = false ->
  failure_of sc = Some (k, error) ->
  nullish error = true \/ to_string (get_prop error KMessage) = None ->
  (exists thrown, snd (connect sc st) = Rejected thrown)
  /\ fst (connect sc st)
     = fst (connect_body sc
              (logEvent "system" "Fetching authentication token..."
                 (updateStatus "connecting" "Getting token..." st)))
  /\ connection_state (fst (connect sc st)) <> Some Error
  /\ (undisturbed sc ->
      connection_state (fst (connect sc st)) = Some Connecting
      /\ isConnected (fst (connect sc st)) = false).
Proof.
  intros Hflag Hfail Hbad.
  rewrite (connect_run sc st Hflag), Hfail. cbv zeta.
  set (entered := logEvent "system" "Fetching authentication token..."
                    (updateStatus "connecting" "Getting token..." st)).
  set (failed := fst (connect_body sc entered)).
  assert (Hcatch : exists thrown,
             connect_catch_run error failed = (failed, inl thrown)).
  { unfold connect_catch_run, member, convert, bind, throw, ret.
    destruct (nullish error); [eauto|].
    destruct Hbad as [Hbad | Hbad]; [discriminate|]. rewrite Hbad. eauto. }
  destruct Hcatch as [thrown Hcatch]. rewrite Hcatch. cbn [fst snd].
  split; [eauto|]. split; [reflexivity|]. split.
  - intros Hs. apply connection_state_class in Hs.
    revert Hs. apply connect_body_not_error. discriminate.
  - intros [Hf [Hi [Hd Hs]]].
    assert (H : statusClass failed = "status connecting"
                /\ isConnected failed = false).
    { apply (connect_body_keeps
               (fun s => statusClass s = "status connecting"
                         /\ isConnected s = false)).
      - intros ns s Hin Hps. simpl in Hin.
        rewrite Hf, Hi, Hd, Hs in Hin.
        destruct Hin as [<-|[<-|[<-|[<-|[]]]]]; exact Hps.
      - intros piece s Hp [Hc Hfl].
        destruct (piece_frame piece s Hp) as [Hfl' [_ [_ [Hst | Hst]]]].
        + split; congruence.
        + split; [apply (connection_state_class _ _ Hst) | congruence].
      - intros s Hps. exact Hps.
      - split; [reflexivity | exact Hflag]. }
    destruct H as [Hc Hfl]. split; [|exact Hfl].
    unfold connection_state. rewrite Hc. reflexivity.
Qed.

Lemma connect_failure_uncaught_witness :
  (snd (connect (rejected_dial JUndefined) loaded_page)
   = Rejected (mkError "Cannot read properties of undefined (reading 'message')")
   /\ connection_state (fst (connect (rejected_dial JUndefined) loaded_page))
      = Some Connecting
   /\ isConnected (fst (connect (rejected_dial JUndefined) loaded_page))
      = false)
  /\ (exists thrown,
        snd (connect (failing_at 6 JNull) loaded_page) = Rejected thrown)
  /\ connection_state (fst (connect (failing_at 6 JNull) loaded_page))
     <> Some Error.
Proof.
  destruct (connect_failure_uncaught (rejected_dial JUndefined) loaded_page
              4 JUndefined eq_refl eq_refl (or_introl eq_refl))
    as [_ [_ [_ Hstuck]]].
  destruct (connect_failure_uncaught (failing_at 6 JNull) loaded_page
              6 JNull eq_refl eq_refl (or_introl eq_refl))
    as [Hrejected [_ [Hnot _]]].
  split; [|split; [exact Hrejected | exact Hnot]].
  split; [vm_compute; reflexivity|].
  apply Hstuck. repeat split.
Defined.

(** A script that makes no step fail lets [connect] run to its end. *)
Lemma connect_completes (sc : ConnectScript) (st : State) :
  isConnected st = false -> failure_of sc = None ->
  snd (connect sc st) = Completed.
Proof.
  intros Hflag Hnone. rewrite (connect_run sc st Hflag), Hnone. reflexivity.
Qed.

Lemma failure_of_failing_at (k : nat) (error : JsError) :
  In k [1; 2; 3; 4; 5; 6] -> failure_of (failing_at k error) = Some (k, error).
Proof.
  simpl. intros [<-|[<-|[<-|[<-|[<-|[<-|[]]]]]]]; reflexivity.
Qed.

(** X21. When a step fails with a value that is neither [null] nor
    [undefined] and whose [message] converts to the text [text], the
    [catch] block runs to its end: it appends an entry of kind [error] that
    shows the text, sets the status to [Error] and then runs the teardown
    path, so that the status element shows [error] and then
    [disconnected]. [connect] ends with the state [Disconnected], no
    session and no connection. The text is that of the engine for a
    message whose numbers are safe integers. *)
Theorem connect_failure_settles (sc : ConnectScript) (st : State)
  (k : nat) (error : JsError) (text : string) :
  isConnected st = false ->
  failure_of sc = Some (k, error) ->
  nullish error = false ->
  to_string (get_prop error KMessage) = Some text ->
  safe (get_prop error KMessage) = true ->
  snd (connect sc st) = Failed error
  /\ (exists failed older shown,
        eventLog (fst (connect sc st))
        = older ++ [mkLogEntry (wallClock failed) "error"
                      ("Connection failed: " ++ text)]
        /\ statusShown (fst (connect sc st))
           = shown ++ ["status error"; "status disconnected"])
  /\ connection_state (fst (connect sc st)) = Some Disconnected
  /\ roomSession (fst (connect sc st)) = None
  /\ isConnected (fst (connect sc st)) = false.
Proof.
  intros Hflag Hfail Hnull Htext _.
  rewrite (connect_run sc st Hflag), Hfail. cbv zeta.
  set (entered := logEvent "system" "Fetching authentication token..."
                    (updateStatus "connecting" "Getting token..." st)).
  assert (Hcalm : statusClass (fst (connect_body sc entered))
                  <> "status error")
    by (apply connect_body_not_error; discriminate).
  set (failed := fst (connect_body sc entered)) in *.
  destruct (connect_catch_cases error failed)
    as [[thrown E] | [text' [_ [Htext' E]]]].
  { exfalso. revert E.
    unfold connect_catch_run, member, convert, bind, throw, ret, act.
    rewrite Hnull, Htext. discriminate. }
  rewrite Htext in Htext'. injection Htext' as <-.
  rewrite E. cbn [fst snd].
  split; [reflexivity|]. split; [|repeat split].
  destruct (logEvent_newest_last "error" ("Connection failed: " ++ text) failed)
    as [older Holder].
  exists failed, older, (statusShown failed). split.
  - exact Holder.
  - apply String.eqb_neq in Hcalm. cbn -[trim String.eqb].
    rewrite Hcalm. cbn. now rewrite <- app_assoc.
Qed.

Lemma connect_failure_settles_witness :
  (snd (connect (failing_at 1 boom) loaded_page) = Failed boom
   /\ connection_state (fst (connect (failing_at 1 boom) loaded_page))
      = Some Disconnected)
  /\ (snd (connect (failing_at 3 boom) loaded_page) = Failed boom
      /\ connection_state (fst (connect (failing_at 3 boom) loaded_page))
         = Some Disconnected)
  /\ (snd (connect (failing_at 6 boom) loaded_page) = Failed boom
      /\ connection_state (fst (connect (failing_at 6 boom) loaded_page))
         = Some Disconnected)
  /\ (snd (connect refused loaded_page) = Failed (mkError "no credentials")
      /\ connection_state (fst (connect refused loaded_page))
         = Some Disconnected).
Proof.
  split; [|split; [|split]].
  - destruct (connect_failure_settles (failing_at 1 boom) loaded_page 1 boom
                "boom" eq_refl eq_refl eq_refl eq_refl eq_refl)
      as [Hres [_ [Hstate _]]].
    exact (conj Hres Hstate).
  - destruct (connect_failure_settles (failing_at 3 boom) loaded_page 3 boom
                "boom" eq_refl eq_refl eq_refl eq_refl eq_refl)
      as [Hres [_ [Hstate _]]].
    exact (conj Hres Hstate).
  - destruct (connect_failure_settles (failing_at 6 boom) loaded_page 6 boom
                "boom" eq_refl eq_refl eq_refl eq_refl eq_refl)
      as [Hres [_ [Hstate _]]].
    exact (conj Hres Hstate).
  - destruct (connect_failure_settles refused loaded_page 1
                (mkError "no credentials") "no credentials"
                eq_refl eq_refl eq_refl eq_refl eq_refl)
      as [Hres [_ [Hstate _]]].
    exact (conj Hres Hstate).
Defined.

(** C8, as the specification states it, fails: after a first [connect] went
    through its six steps and before [room.joined] arrives, a session
    exists, and a second [connect] is not a no-op: it goes through the six
    steps again and replaces the session handle. The same holds once
    [disconnect] has been called in that state and waits for the hangup,
    with the status [Disconnecting]. *)
Lemma connect_guard_counterexample :
  (reachable fresh_page dialed_page
   /\ spec_connect_guard dialed_page
   /\ roomSession dialed_page = Some 7
   /\ snd (connect (all_succeed 8) dialed_page) = Completed
   /\ roomSession (fst (connect (all_succeed 8) dialed_page)) = Some 8
   /\ effects (fst (connect (all_succeed 8) dialed_page))
      = effects dialed_page
        ++ [FetchToken; InitClient (JStr "tok");
            ClientOn "user_event"; ClientOn "calling.user_event";
            ClientOn "signalwire.event"; Dial (JStr "/public/agent");
            SessionOn "user_event"; SessionOn "room.joined";
            SessionOn "room.left"; SessionOn "destroy"; StartSession]
   /\ connect (all_succeed 8) dialed_page
      <> (logEvent "system" "Already connected" dialed_page, AlreadyConnected))
  /\ (reachable fresh_page dialed_hanging_up_page
      /\ connection_state dialed_hanging_up_page = Some Disconnecting
      /\ roomSession dialed_hanging_up_page = Some 7
      /\ snd (connect (all_succeed 8) dialed_hanging_up_page) = Completed
      /\ roomSession (fst (connect (all_succeed 8) dialed_hanging_up_page))
         = Some 8).
Proof.
  split.
  - split; [apply reachable_dialed_page|].
    split; [right; vm_compute; reflexivity|].
    repeat (split; [vm_compute; reflexivity|]).
    intros H. apply (f_equal snd) in H. vm_compute in H. discriminate H.
  - split; [eapply reach_step;
            [apply reachable_dialed_page | apply step_disconnect]|].
    repeat split; vm_compute; reflexivity.
Qed.

(** C8, amended. [connect] called while the flag [isConnected] is set is a
    no-op apart from the notice it appends: it makes no call on the token
    endpoint or the SDK and leaves the status, the session handle, the
    client and the credentials as they were. The flag is set in every state
    the page goes through in which the status is [Connected]. *)
Theorem connect_already_connected :
  (forall sc st,
      isConnected st = true ->
      connect sc st = (logEvent "system" "Already connected" st, AlreadyConnected)
      /\ effects (fst (connect sc st)) = effects st
      /\ connection_state (fst (connect sc st)) = connection_state st
      /\ isConnected (fst (connect sc st)) = true
      /\ roomSession (fst (connect sc st)) = roomSession st
      /\ client (fst (connect sc st)) = client st
      /\ currentToken (fst (connect sc st)) = currentToken st
      /\ currentDestination (fst (connect sc st)) = currentDestination st)
  /\ (forall page st,
        well_loaded page -> reachable page st ->
        connection_state st = Some Connected -> isConnected st = true).
Proof.
  split.
  - intros sc st Hflag. unfold connect, connect_enter. rewrite Hflag.
    cbn [fst]. repeat split; try reflexivity. exact Hflag.
  - intros page st Hpage Hreach Hstatus.
    exact (connected_flag st (reachable_consistent page st Hpage Hreach) Hstatus).
Qed.

Lemma connect_already_connected_witness :
  connection_state joined_page = Some Connected
  /\ isConnected joined_page = true
  /\ connect (all_succeed 8) joined_page
     = (logEvent "system" "Already connected" joined_page, AlreadyConnected).
Proof.
  split; [vm_compute; reflexivity|].
  assert (Hflag : isConnected joined_page = true).
  { apply (proj2 connect_already_connected fresh_page joined_page).
    - apply well_loaded_fresh_page.
    - apply reachable_joined_page.
    - vm_compute; reflexivity. }
  split; [exact Hflag|].
  apply (proj1 connect_already_connected (all_succeed 8) joined_page Hflag).
Defined.

(* ------------------------------------------------------------------------- *)
(** ** The buttons *)
(* ------------------------------------------------------------------------- *)

(** C9, as the specification states it, fails: once connected, a call of
    [disconnect] sets the status to [Disconnecting] and waits for the
    hangup; until the teardown runs the connect button stays disabled and
    the disconnect button enabled, though the state is not [Connected]. *)
Lemma buttons_counterexample :
  reachable fresh_page hanging_up_page
  /\ connection_state hanging_up_page = Some Disconnecting
  /\ connect_enabled hanging_up_page = false
  /\ disconnect_enabled hanging_up_page = true
  /\ ~ spec_buttons hanging_up_page.
Proof.
  split; [apply reachable_hanging_up_page|].
  repeat (split; [vm_compute; reflexivity|]).
  intros [Hconnect _].
  assert (H : connect_enabled hanging_up_page = true).
  { apply Hconnect. intros Hs. vm_compute in Hs. discriminate Hs. }
  vm_compute in H. discriminate H.
Qed.

(** C9, amended. [updateButtons] enables the connect button exactly when the
    flag [isConnected] is clear and the disconnect button exactly when it
    is set, and in every state the page goes through the buttons are as
    [updateButtons] would set them. The flag is set when the state is
    [Connected] and clear when it is [Disconnected] or [Idle], so there
    the connect button is enabled iff the state is not [Connected] and the
    disconnect button iff it is. *)
Theorem buttons_follow_flag :
  (forall st,
      connect_enabled (updateButtons st) = negb (isConnected st)
      /\ disconnect_enabled (updateButtons st) = isConnected st)
  /\ (forall page st,
        well_loaded page -> reachable page st ->
        connect_enabled st = negb (isConnected st)
        /\ disconnect_enabled st = isConnected st
        /\ (connection_state st = Some Connected ->
            connect_enabled st = false /\ disconnect_enabled st = true)
        /\ (connection_state st = Some Disconnected
            \/ connection_state st = Some Idle ->
            connect_enabled st = true /\ disconnect_enabled st = false)
        /\ (connection_state st = Some Connected
            \/ connection_state st = Some Disconnected
            \/ connection_state st = Some Idle ->
            spec_buttons st)).
Proof.
  split.
  - intros st. unfold connect_enabled, disconnect_enabled. cbn.
    split; [reflexivity | apply negb_involutive].
  - intros page st Hpage Hreach.
    destruct (reachable_consistent page st Hpage Hreach)
      as [Hc Hd Hcon Hdis Hidle].
    unfold spec_buttons, connect_enabled, disconnect_enabled.
    rewrite Hc, Hd, negb_involutive.
    split; [reflexivity|]. split; [reflexivity|].
    split; [intros Hs; rewrite (Hcon Hs); split; reflexivity|].
    split.
    + intros [Hs|Hs]; [rewrite (Hdis Hs) | rewrite (Hidle Hs)];
        split; reflexivity.
    + intros [Hs|[Hs|Hs]].
      all: rewrite ?(Hcon Hs), ?(Hdis Hs), ?(Hidle Hs), Hs; cbn;
        split; split; intros H;
        first [ reflexivity | discriminate H | now elim H
              | intros H'; discriminate H' ].
Qed.

Lemma buttons_follow_flag_witness :
  (connect_enabled joined_page = false /\ disconnect_enabled joined_page = true)
  /\ spec_buttons joined_page
  /\ connect_enabled hanging_up_page = negb (isConnected hanging_up_page).
Proof.
  destruct (proj2 buttons_follow_flag fresh_page joined_page
              well_loaded_fresh_page reachable_joined_page)
    as [_ [_ [Hconnected [_ Hspec]]]].
  destruct (proj2 buttons_follow_flag fresh_page hanging_up_page
              well_loaded_fresh_page reachable_hanging_up_page)
    as [Hflag _].
  split; [apply Hconnected; vm_compute; reflexivity|].
  split; [apply Hspec; left; vm_compute; reflexivity | exact Hflag].
Defined.

(* ------------------------------------------------------------------------- *)
(** ** What the handlers leave alone *)
(* ------------------------------------------------------------------------- *)

(** The part of the page that belongs to the connection. *)
Lemma reflect_connection (ev : ApplicationEvent) (st : State) :
  client (reflect ev st) = client st
  /\ roomSession (reflect ev st) = roomSession st
  /\ currentToken (reflect ev st) = currentToken st
  /\ currentDestination (reflect ev st) = currentDestination st
  /\ isConnected (reflect ev st) = isConnected st
  /\ statusClass (reflect ev st) = statusClass st
  /\ statusText (reflect ev st) = statusText st
  /\ connectDisabled (reflect ev st) = connectDisabled st
  /\ disconnectDisabled (reflect ev st) = disconnectDisabled st
  /\ placeholder (reflect ev st) = placeholder st
  /\ wallClock (reflect ev st) = wallClock st
  /\ effects (reflect ev st) = effects st.
Proof.
  unfold reflect, reflect_run, convert, bind, throw, ret, act.
  destruct ev as [name | message | count increment | rawType data].
  - destruct (to_string name); repeat split.
  - destruct (to_string message); repeat split.
  - destruct (to_string count); [|repeat split].
    destruct (to_string increment); repeat split.
  - repeat split.
Qed.

(** X3. Handling a user event never writes the globals of the connection,
    the status element, the buttons or the video container, and makes no
    call on the token endpoint or the SDK. *)
Theorem handleUserEvent_connection_untouched (params : JsVal) (st : State) :
  client (handleUserEvent params st) = client st
  /\ roomSession (handleUserEvent params st) = roomSession st
  /\ currentToken (handleUserEvent params st) = currentToken st
  /\ currentDestination (handleUserEvent params st) = currentDestination st
  /\ isConnected (handleUserEvent params st) = isConnected st
  /\ statusClass (handleUserEvent params st) = statusClass st
  /\ statusText (handleUserEvent params st) = statusText st
  /\ connectDisabled (handleUserEvent params st) = connectDisabled st
  /\ disconnectDisabled (handleUserEvent params st) = disconnectDisabled st
  /\ placeholder (handleUserEvent params st) = placeholder st
  /\ wallClock (handleUserEvent params st) = wallClock st
  /\ effects (handleUserEvent params st) = effects st.
Proof.
  rewrite handleUserEvent_normalize.
  destruct (normalize params) as [ev|]; [apply reflect_connection|].
  repeat split.
Qed.



(** X1. The three user-event subscriptions run the same handler on what
    they receive. The [signalwire.event] subscription runs it only for an
    envelope whose [event_type] is [user_event], on the envelope's [params]
    when that is truthy and on the envelope itself otherwise; any other
    envelope leaves the page as it is, and so does one that is [null] or
    [undefined], on which the handler throws. *)
Theorem channels_agree (params : JsVal) (st : State) :
  deliver (ClientUserEvent params) st = handleUserEvent params st
  /\ deliver (ClientCallingUserEvent params) st = handleUserEvent params st
  /\ deliver (SessionUserEvent params) st = handleUserEvent params st
  /\ (get_prop params KEventType = JStr "user_event" ->
      truthy (get_prop params KParams) = true ->
      deliver (ClientSignalwireEvent params) st
      = handleUserEvent (get_prop params KParams) st)
  /\ (get_prop params KEventType = JStr "user_event" ->
      truthy (get_prop params KParams) = false ->
      deliver (ClientSignalwireEvent params) st = handleUserEvent params st)
  /\ (get_prop params KEventType <> JStr "user_event" ->
      deliver (ClientSignalwireEvent params) st = st)
  /\ (nullish params = true -> on_signalwire_event params st = None).
Proof.
  repeat split.
  - intros Ht Hp. cbn [deliver]. unfold on_signalwire_event.
    destruct (nullish params) eqn:En; [destruct params; discriminate|].
    rewrite Ht. cbn. now rewrite (js_or_truthy _ _ Hp).
  - intros Ht Hp. cbn [deliver]. unfold on_signalwire_event.
    destruct (nullish params) eqn:En; [destruct params; discriminate|].
    rewrite Ht. cbn. now rewrite (js_or_falsy _ _ Hp).
  - intros Ht. cbn [deliver]. unfold on_signalwire_event.
    destruct (nullish params); [reflexivity|].
    destruct (get_prop params KEventType) eqn:E; try reflexivity.
    cbn. destruct (String.eqb_spec s "user_event"); [|reflexivity].
    subst s. now elim Ht.
  - intros Hn. unfold on_signalwire_event. now rewrite Hn.
Qed.

Lemma channels_agree_witness :
  deliver (ClientSignalwireEvent enveloped_greeting) fresh_page
  = handleUserEvent greeting_ana fresh_page
  /\ deliver (ClientSignalwireEvent enveloped_other) fresh_page = fresh_page.
Proof.
  destruct (channels_agree enveloped_greeting fresh_page)
    as [_ [_ [_ [Hparams _]]]].
  destruct (channels_agree enveloped_other fresh_page)
    as [_ [_ [_ [_ [_ [Hother _]]]]]].
  split; [apply Hparams; reflexivity | apply Hother; discriminate].
Defined.

(** X4. An application event writes its own display and the log, and no
    other display. A greeting whose name converts to [text] shows
    "Hello, text!" and leaves the counter and the echo as they were; an
    echo and a counter update do likewise with their own display; an event
    of an unrecognized type leaves all three. Where the name, the message
    or the count cannot be converted, the handler throws before it writes
    anything. The texts are those of the engine for values whose numbers
    are safe integers. *)
Theorem event_writes_own_display (raw : JsVal) (st : State) :
  (forall name text,
     normalize raw = Some (Greeting name) ->
     to_string name = Some text -> safe name = true ->
     lastGreeting (handleUserEvent raw st)
     = ("Hello, " ++ text ++ "!")%string
     /\ greetingHighlight (handleUserEvent raw st) = true
     /\ counterValue (handleUserEvent raw st) = counterValue st
     /\ counterHighlight (handleUserEvent raw st) = counterHighlight st
     /\ lastEcho (handleUserEvent raw st) = lastEcho st
     /\ echoHighlight (handleUserEvent raw st) = echoHighlight st)
  /\ (forall message text,
     normalize raw = Some (Echo message) ->
     to_string message = Some text -> safe message = true ->
     lastEcho (handleUserEvent raw st)
     = String DoubleQuote (text ++ String DoubleQuote "")
     /\ echoHighlight (handleUserEvent raw st) = true
     /\ counterValue (handleUserEvent raw st) = counterValue st
     /\ counterHighlight (handleUserEvent raw st) = counterHighlight st
     /\ lastGreeting (handleUserEvent raw st) = lastGreeting st
     /\ greetingHighlight (handleUserEvent raw st) = greetingHighlight st)
  /\ (forall count increment text,
     normalize raw = Some (CounterUpdated count increment) ->
     to_string count = Some text -> safe count = true ->
     counterValue (handleUserEvent raw st) = text
     /\ counterHighlight (handleUserEvent raw st) = true
     /\ lastGreeting (handleUserEvent raw st) = lastGreeting st
     /\ greetingHighlight (handleUserEvent raw st) = greetingHighlight st
     /\ lastEcho (handleUserEvent raw st) = lastEcho st
     /\ echoHighlight (handleUserEvent raw st) = echoHighlight st)
  /\ (forall rawType data, normalize raw = Some (Unknown rawType data) ->
     counterValue (handleUserEvent raw st) = counterValue st
     /\ counterHighlight (handleUserEvent raw st) = counterHighlight st
     /\ lastGreeting (handleUserEvent raw st) = lastGreeting st
     /\ greetingHighlight (handleUserEvent raw st) = greetingHighlight st
     /\ lastEcho (handleUserEvent raw st) = lastEcho st
     /\ echoHighlight (handleUserEvent raw st) = echoHighlight st)
  /\ (forall name,
     normalize raw = Some (Greeting name) -> to_string name = None ->
     handleUserEvent raw st = st
     /\ snd (handleUserEvent_run raw st) = inl conversion_error)
  /\ (forall message,
     normalize raw = Some (Echo message) -> to_string message = None ->
     handleUserEvent raw st = st
     /\ snd (handleUserEvent_run raw st) = inl conversion_error)
  /\ (forall count increment,
     normalize raw = Some (CounterUpdated count increment) ->
     to_string count = None ->
     handleUserEvent raw st = st
     /\ snd (handleUserEvent_run raw st) = inl conversion_error).
Proof.
  unfold handleUserEvent. rewrite handleUserEvent_run_normalize.
  unfold reflect_run, convert, bind, throw, ret, act.
  split; [|split; [|split; [|split; [|split; [|split]]]]].
  - intros name text Hev Htext _. rewrite Hev, Htext. repeat split.
  - intros message text Hev Htext _. rewrite Hev, Htext. repeat split.
  - intros count increment text Hev Htext _. rewrite Hev, Htext.
    destruct (to_string increment); repeat split.
  - intros rawType data Hev. rewrite Hev. repeat split.
  - intros name Hev Htext. rewrite Hev, Htext. split; reflexivity.
  - intros message Hev Htext. rewrite Hev, Htext. split; reflexivity.
  - intros count increment Hev Htext. rewrite Hev, Htext. split; reflexivity.
Qed.

Lemma event_writes_own_display_witness :
  lastGreeting (handleUserEvent greeting_ana fresh_page) = "Hello, Ana!"
  /\ counterValue (handleUserEvent greeting_ana fresh_page) = "0"
  /\ counterValue (handleUserEvent counter_in_event fresh_page) = "5"
  /\ lastGreeting (handleUserEvent counter_in_event fresh_page) = ""
  /\ handleUserEvent greeting_unprintable fresh_page = fresh_page.
Proof.
  destruct (event_writes_own_display greeting_ana fresh_page)
    as [Hgreeting _].
  destruct (event_writes_own_display counter_in_event fresh_page)
    as [_ [_ [Hcounter _]]].
  destruct (event_writes_own_display greeting_unprintable fresh_page)
    as [_ [_ [_ [_ [Hthrown _]]]]].
  destruct (Hgreeting (JStr "Ana") "Ana" eq_refl eq_refl eq_refl)
    as [Hg [_ [Hc _]]].
  destruct (Hcounter (JNum 5) (JNum 1) "5" eq_refl eq_refl eq_refl)
    as [Hv [_ [Hl _]]].
  destruct (Hthrown (JObj [("toString", JNum 1)]) eq_refl eq_refl)
    as [Hsame _].
  split; [exact Hg|]. split; [exact Hc|]. split; [exact Hv|].
  split; [exact Hl | exact Hsame].
Defined.

(** Two appends leave their two entries at the end, in order. *)
Lemma newest_two (l : list LogEntry) (a b : LogEntry) :
  exists older, newest (newest (l ++ [a]) ++ [b]) = older ++ [a; b].
Proof.
  rewrite newest_newest_snoc.
  unfold newest. rewrite !length_app. cbn [List.length].
  destruct (Nat.le_gt_cases (List.length l + 1 + 1) LOG_CAP) as [Hle | Hgt].
  - replace (List.length l + 1 + 1 - LOG_CAP) with 0 by lia.
    exists l. cbn [skipn]. now rewrite <- app_assoc.
  - exists (skipn (List.length l + 1 + 1 - LOG_CAP) l).
    rewrite <- app_assoc. cbn [app]. rewrite skipn_app.
    replace (List.length l + 1 + 1 - LOG_CAP - List.length l) with 0
      by (unfold LOG_CAP in *; lia).
    reflexivity.
Qed.

(** A branch that runs to its end appends one entry, whose kind and
    message do not depend on the page, and writes neither the log nor the
    clock otherwise. *)
Lemma reflect_run_returns (ev : ApplicationEvent) (st : State) :
  snd (reflect_run ev st) = inr tt ->
  exists type msg, forall s,
    snd (reflect_run ev s) = inr tt
    /\ eventLog (reflect ev s)
       = newest (eventLog s ++ [mkLogEntry (wallClock s) type msg])
    /\ wallClock (reflect ev s) = wallClock s.
Proof.
  unfold reflect, reflect_run, convert, bind, throw, ret, act.
  destruct ev as [name | message | count increment | rawType data];
    cbn [fst snd].
  - destruct (to_string name) as [text|]; [|discriminate].
    intros _. do 2 eexists. intros s. cbn [fst snd].
    rewrite eventLog_logEvent. repeat split.
  - destruct (to_string message) as [text|]; [|discriminate].
    intros _. do 2 eexists. intros s. cbn [fst snd].
    rewrite eventLog_logEvent. repeat split.
  - destruct (to_string count) as [shown|]; [|discriminate]. cbn [fst snd].
    destruct (to_string increment) as [added|]; [|discriminate].
    intros _. do 2 eexists. intros s. cbn [fst snd].
    rewrite eventLog_logEvent. repeat split.
  - intros _. do 2 eexists. intros s. cbn [fst snd].
    rewrite eventLog_logEvent. repeat split.
Qed.

(** X5. Nothing removes duplicates: an application event whose handler
    returns, handled again in a later turn (as when a second channel
    delivers it), is logged again: the two newest entries have the same
    kind and message, each with the time of its turn, and the displays are
    after the second time as after the first. *)
Theorem duplicate_delivery_logged_twice (raw : JsVal) (ev : ApplicationEvent)
  (st : State) (now : string) :
  normalize raw = Some ev ->
  snd (handleUserEvent_run raw st) = inr tt ->
  (exists older type msg,
      eventLog (handleUserEvent raw
                  (set_wallClock now (handleUserEvent raw st)))
      = older ++ [mkLogEntry (wallClock st) type msg;
                  mkLogEntry now type msg])
  /\ counterValue (handleUserEvent raw
                     (set_wallClock now (handleUserEvent raw st)))
     = counterValue (handleUserEvent raw st)
  /\ lastGreeting (handleUserEvent raw
                     (set_wallClock now (handleUserEvent raw st)))
     = lastGreeting (handleUserEvent raw st)
  /\ lastEcho (handleUserEvent raw
                 (set_wallClock now (handleUserEvent raw st)))
     = lastEcho (handleUserEvent raw st).
Proof.
  intros Hev Hreturns.
  rewrite handleUserEvent_run_normalize, Hev in Hreturns.
  rewrite !handleUserEvent_normalize, Hev. split.
  - destruct (reflect_run_returns ev st Hreturns) as [type [msg Hrun]].
    destruct (Hrun st) as [_ [Hlog _]].
    destruct (Hrun (set_wallClock now (reflect ev st))) as [_ [Hlog' _]].
    rewrite Hlog'.
    change (eventLog (set_wallClock now (reflect ev st)))
      with (eventLog (reflect ev st)).
    change (wallClock (set_wallClock now (reflect ev st))) with now.
    rewrite Hlog.
    destruct (newest_two (eventLog st) (mkLogEntry (wallClock st) type msg)
                (mkLogEntry now type msg)) as [older Holder].
    exists older, type, msg. exact Holder.
  - revert Hreturns.
    unfold reflect, reflect_run, convert, bind, throw, ret, act.
    destruct ev as [name | message | count increment | rawType data];
      cbn [fst snd].
    + destruct (to_string name); [|discriminate]. repeat split.
    + destruct (to_string message); [|discriminate]. repeat split.
    + destruct (to_string count); [|discriminate]. cbn [fst snd].
      destruct (to_string increment); [|discriminate]. repeat split.
    + repeat split.
Qed.

Lemma duplicate_delivery_logged_twice_witness :
  exists older type msg,
    eventLog (handleUserEvent greeting_ana
                (set_wallClock "09:00:01"
                   (handleUserEvent greeting_ana fresh_page)))
    = older ++ [mkLogEntry "09:00:00" type msg;
                mkLogEntry "09:00:01" type msg].
Proof.
  apply (duplicate_delivery_logged_twice greeting_ana (Greeting (JStr "Ana"))
           fresh_page "09:00:01" eq_refl eq_refl).
Defined.

(** X6. After a run of one or more appends the log is the newest 50 of
    what it held followed by what was appended, in order; its length is
    the smaller of 50 and the number of all of them. *)
Theorem log_after_run (entries : list (string * string)) (st : State) :
  entries <> [] ->
  eventLog (append_all entries st)
  = newest (eventLog st ++ map (entry_of st) entries)
  /\ List.length (eventLog (append_all entries st))
     = Nat.min 50 (List.length (eventLog st) + List.length entries).
Proof.
  intros Hne. rewrite eventLog_append_all.
  destruct entries as [|e es]; [now elim Hne|].
  split; [reflexivity|].
  unfold newest. rewrite length_skipn, length_app, length_map.
  unfold LOG_CAP. lia.
Qed.

Lemma log_after_run_witness :
  List.length (eventLog (append_all fifty_one loaded_page)) = 50.
Proof.
  destruct (log_after_run fifty_one loaded_page) as [_ Hlen];
    [discriminate | exact Hlen].
Defined.

(** X7. While the log holds fewer than 50 entries an append removes
    nothing. *)
Theorem log_below_cap_keeps_all (type msg : string) (st : State) :
  List.length (eventLog st) < 50 ->
  eventLog (logEvent type msg st)
  = eventLog st ++ [mkLogEntry (wallClock st) type msg].
Proof.
  intros Hlt. rewrite eventLog_logEvent, newest_snoc.
  replace (S (List.length (eventLog st)) - LOG_CAP) with 0
    by (unfold LOG_CAP; lia).
  reflexivity.
Qed.

Lemma log_below_cap_keeps_all_witness :
  eventLog (logEvent "system" "x" loaded_page)
  = eventLog loaded_page ++ [mkLogEntry "09:00:00" "system" "x"].
Proof.
  apply (log_below_cap_keeps_all "system" "x" loaded_page).
  vm_compute. lia.
Defined.

(* ------------------------------------------------------------------------- *)
(** ** What notifications leave alone *)
(* ------------------------------------------------------------------------- *)

(** No handler, timer or tick writes the client handle or the credentials,
    or calls the token endpoint or the SDK. *)
Lemma deliver_keeps (n : Notification) (st : State) :
  client (deliver n st) = client st
  /\ currentToken (deliver n st) = currentToken st
  /\ currentDestination (deliver n st) = currentDestination st
  /\ effects (deliver n st) = effects st.
Proof.
  assert (Hh : forall p,
             client (handleUserEvent p st) = client st
             /\ currentToken (handleUserEvent p st) = currentToken st
             /\ currentDestination (handleUserEvent p st) = currentDestination st
             /\ effects (handleUserEvent p st) = effects st).
  { intros p. rewrite handleUserEvent_normalize.
    destruct (normalize p) as [ev|]; [|repeat split].
    destruct (reflect_connection ev st)
      as [Hc [_ [Ht [Hd [_ [_ [_ [_ [_ [_ [_ He]]]]]]]]]]].
    repeat split; assumption. }
  destruct n as [p | p | p | p | | | | d | now]; cbn [deliver];
    try apply Hh.
  - unfold on_signalwire_event. destruct (nullish p); [repeat split|].
    destruct (is_str _ _); [apply Hh | repeat split].
  - unfold on_room_joined. cbn -[logEvent].
    destruct (placeholder _); repeat split.
  - repeat split.
  - repeat split.
  - destruct d; repeat split.
  - repeat split.
Qed.

Lemma deliver_all_keeps (ns : list Notification) (st : State) :
  client (deliver_all ns st) = client st
  /\ currentToken (deliver_all ns st) = currentToken st
  /\ currentDestination (deliver_all ns st) = currentDestination st
  /\ effects (deliver_all ns st) = effects st.
Proof.
  revert st. induction ns as [|n ns IH]; intros st; [repeat split|].
  cbn [deliver_all fold_left].
  destruct (IH (deliver n st)) as [Hc [Ht [Hd He]]].
  destruct (deliver_keeps n st) as [Hc' [Ht' [Hd' He']]].
  unfold deliver_all in *.
  rewrite Hc, Ht, Hd, He, Hc', Ht', Hd', He'. repeat split.
Qed.

Lemma client_deliver_all ns st : client (deliver_all ns st) = client st.
Proof. apply deliver_all_keeps. Qed.

Lemma currentToken_deliver_all ns st :
  currentToken (deliver_all ns st) = currentToken st.
Proof. apply deliver_all_keeps. Qed.

Lemma currentDestination_deliver_all ns st :
  currentDestination (deliver_all ns st) = currentDestination st.
Proof. apply deliver_all_keeps. Qed.

Lemma effects_deliver_all ns st : effects (deliver_all ns st) = effects st.
Proof. apply deliver_all_keeps. Qed.

(* ------------------------------------------------------------------------- *)
(** ** disconnect and the teardown, further *)
(* ------------------------------------------------------------------------- *)

(** X8. Neither the teardown path nor [disconnect] clears the client handle
    or the credentials: after them the client, the token and the destination
    are those of before, whatever arrives during the hangup. *)
Theorem teardown_keeps_client_and_credentials :
  (forall st,
      client (handleDisconnect st) = client st
      /\ currentToken (handleDisconnect st) = currentToken st
      /\ currentDestination (handleDisconnect st) = currentDestination st)
  /\ (forall sc st,
        client (disconnect sc st) = client st
        /\ currentToken (disconnect sc st) = currentToken st
        /\ currentDestination (disconnect sc st) = currentDestination st).
Proof.
  split; [intros st; repeat split|].
  intros sc st. unfold disconnect, disconnect_enter, hangup_step.
  destruct (negb (isConnected st) && negb (has_session st));
    [repeat split|].
  unfold bind, gets, perform, call, await, ret.
  cbn -[trim deliver_all handleDisconnect].
  destruct (roomSession st); cbn -[trim deliver_all];
    rewrite ?client_deliver_all, ?currentToken_deliver_all,
      ?currentDestination_deliver_all; repeat split.
Qed.

(** X9. [disconnect] calls [hangup] exactly when a session handle is set,
    once and on that session; it makes no other call. *)
Theorem disconnect_hangs_up_the_session (sc : DisconnectScript) (st : State) :
  effects (disconnect sc st)
  = effects st ++ match roomSession st with
                  | Some s => [Hangup s]
                  | None => []
                  end.
Proof.
  unfold disconnect, disconnect_enter, hangup_step, has_session.
  destruct (roomSession st) as [s|] eqn:Es.
  - rewrite andb_false_r.
    unfold bind, gets, perform, call, await.
    cbn -[trim deliver_all]. rewrite Es.
    cbn -[trim deliver_all]. now rewrite effects_deliver_all.
  - destruct (isConnected st); cbn -[trim].
    + unfold bind, gets, ret. cbn -[trim]. rewrite Es.
      cbn. now rewrite app_nil_r.
    + now rewrite app_nil_r.
Qed.

(** X10. The teardown path always leaves the placeholder shown; the
    [room.joined] handler never does: it hides the placeholder when there
    is one and adds none when there is none. A join after a teardown
    therefore hides it, and a teardown after a join shows it again. *)
Theorem placeholder_follows_connection (st : State) :
  placeholder (handleDisconnect st) = PlaceholderShown
  /\ placeholder (on_room_joined st) <> PlaceholderShown
  /\ (placeholder st = PlaceholderAbsent ->
      placeholder (on_room_joined st) = PlaceholderAbsent)
  /\ (placeholder st <> PlaceholderAbsent ->
      placeholder (on_room_joined st) = PlaceholderHidden)
  /\ placeholder (on_room_joined (handleDisconnect st)) = PlaceholderHidden
  /\ placeholder (handleDisconnect (on_room_joined st)) = PlaceholderShown.
Proof.
  split; [reflexivity|].
  assert (Hjoin : placeholder (on_room_joined st)
                  = match placeholder st with
                    | PlaceholderAbsent => PlaceholderAbsent
                    | _ => PlaceholderHidden
                    end).
  { unfold on_room_joined. cbn -[trim].
    destruct (placeholder st) eqn:Ep; cbn -[trim];
      [exact Ep | reflexivity | reflexivity]. }
  split; [rewrite Hjoin; destruct (placeholder st); discriminate|].
  split; [intros Ha; now rewrite Hjoin, Ha|].
  split; [intros Hp; rewrite Hjoin; destruct (placeholder st);
          [now elim Hp | reflexivity | reflexivity]|].
  split; reflexivity.
Qed.

Lemma placeholder_follows_connection_witness :
  placeholder (on_room_joined fresh_page) = PlaceholderHidden.
Proof.
  destruct (placeholder_follows_connection fresh_page)
    as [_ [_ [_ [Hhide _]]]].
  apply Hhide. discriminate.
Defined.

(* ------------------------------------------------------------------------- *)
(** ** connect, further *)
(* ------------------------------------------------------------------------- *)

(** The [catch] block calls nothing on the outside and writes neither the
    client handle nor the credentials. *)
Lemma connect_catch_keeps (error : JsError) (st : State) :
  client (connect_catch error st) = client st
  /\ currentToken (connect_catch error st) = currentToken st
  /\ currentDestination (connect_catch error st) = currentDestination st
  /\ effects (connect_catch error st) = effects st.
Proof.
  unfold connect_catch.
  destruct (connect_catch_cases error st) as [[thrown E] | [text [_ [_ E]]]];
    rewrite E; repeat split.
Qed.

(** The page [connect] leaves is the one the [try] block leaves, followed
    by the [catch] block when a step failed. *)
Lemma fst_connect_run (sc : ConnectScript) (st : State) :
  isConnected st = false ->
  fst (connect sc st)
  = let tried :=
      fst (connect_body sc
             (logEvent "system" "Fetching authentication token..."
                (updateStatus "connecting" "Getting token..." st))) in
    match failure_of sc with
    | None => tried
    | Some (_, error) => connect_catch error tried
    end.
Proof.
  intros Hflag. rewrite (connect_run sc st Hflag). cbv zeta.
  destruct (failure_of sc) as [[k error]|]; [|reflexivity].
  unfold connect_catch.
  destruct (connect_catch_run error _) as [final [thrown | u]]; reflexivity.
Qed.

(** The calls of the [try] block: an initial part of the eleven, up to the
    call that failed. *)
Lemma connect_body_calls (sc : ConnectScript) (st : State) :
  exists token destination n,
    1 <= n <= 11
    /\ effects (fst (connect_body sc st))
       = effects st ++ firstn n (connect_calls token destination)
    /\ (failure_of sc = None -> n = 11)
    /\ (forall k error, failure_of sc = Some (k, error) ->
        forall c, In c (firstn n (connect_calls token destination)) ->
                  step_of_call c <= k)
    /\ (forall k error, failure_of sc = Some (k, error) ->
        forall c, In c (connect_calls token destination) ->
                  step_of_call c < k ->
                  In c (firstn n (connect_calls token destination))).
Proof.
  unfold connect_body, failure_of, token_step, client_step,
    session_step, started_step, first_throw, client_channels,
    session_channels, member, convert, bind, await, perform, call, act,
    gets, throw, ret.
  destruct (fetch_result sc) as [e | tokenData].
  - exists JUndefined, JUndefined, 1. split; [lia|].
    cbn -[trim deliver_all]. rewrite effects_deliver_all.
    split; [reflexivity|]. split; [discriminate|]. split.
    + intros k error Hk c [<- | []]. injection Hk as <- _. cbn. lia.
    + intros k error Hk c Hin Hlt. injection Hk as <- _. cbn in Hin.
      repeat (destruct Hin as [<- | Hin]; [cbn in Hlt; lia|]).
      now elim Hin.
  - exists (get_prop tokenData KToken), (get_prop tokenData KAddress).
    destruct (nullish tokenData);
      [|destruct (truthy (get_prop tokenData KError));
        [destruct (to_string (get_prop tokenData KError)) as [text|]
        |cbn [currentDestination set_credentials fst snd];
         destruct (to_string (get_prop tokenData KAddress)) as [text|];
         [destruct (init_result sc) as [e | c];
          [|destruct (client_on_result sc "user_event");
            [|destruct (client_on_result sc "calling.user_event");
              [|destruct (client_on_result sc "signalwire.event");
                [|destruct (dial_result sc) as [e | s];
                  [|destruct (session_on_result sc "user_event");
                    [|destruct (session_on_result sc "room.joined");
                      [|destruct (session_on_result sc "room.left");
                        [|destruct (session_on_result sc "destroy");
                          [|destruct (start_result sc) as [e | []]]]]]]]]]]|]]].
    all: repeat (cbn -[trim deliver_all firstn connect_calls step_of_call];
                 rewrite ?effects_deliver_all, ?currentToken_deliver_all,
                   ?currentDestination_deliver_all, ?client_deliver_all).
    all: rewrite <- ?app_assoc; cbn [app].
    all: first
           [ exists 1; split; [lia | split; [reflexivity|]]
           | exists 2; split; [lia | split; [reflexivity|]]
           | exists 3; split; [lia | split; [reflexivity|]]
           | exists 4; split; [lia | split; [reflexivity|]]
           | exists 5; split; [lia | split; [reflexivity|]]
           | exists 6; split; [lia | split; [reflexivity|]]
           | exists 7; split; [lia | split; [reflexivity|]]
           | exists 8; split; [lia | split; [reflexivity|]]
           | exists 9; split; [lia | split; [reflexivity|]]
           | exists 10; split; [lia | split; [reflexivity|]]
           | exists 11; split; [lia | split; [reflexivity|]] ].
    all: (split;
          [ first [ discriminate | reflexivity ]
          | split;
            [ intros k error Hk made Hin; first [ discriminate Hk | idtac ];
              try (injection Hk as <- _); cbn in Hin;
              repeat (destruct Hin as [<- | Hin]; [cbn; lia|]);
              now elim Hin
            | intros k error Hk made Hin Hlt;
              first [ discriminate Hk | idtac ];
              try (injection Hk as <- _); cbn in Hin;
              repeat (destruct Hin as [<- | Hin];
                      [first [ cbn in Hlt; lia | cbn; tauto ]|]);
              now elim Hin ] ]).
Qed.

(** X11. When no step fails, [connect] makes the eleven calls of its six
    steps once each and in program order, with the token and the
    destination of the response; it ends with these as the credentials
    and with the client handle the SDK returned, whatever arrives while it
    waits. A response without [token] or [address] is not refused: the
    client is initialised and the dial made with [undefined]. *)
Theorem connect_success_calls (sc : ConnectScript) (st : State)
  (tokenData : JsVal) (c : Client) :
  isConnected st = false ->
  failure_of sc = None ->
  fetch_result sc = inr tokenData ->
  init_result sc = inr c ->
  snd (connect sc st) = Completed
  /\ effects (fst (connect sc st))
     = effects st ++ connect_calls (get_prop tokenData KToken)
                                   (get_prop tokenData KAddress)
  /\ currentToken (fst (connect sc st)) = get_prop tokenData KToken
  /\ currentDestination (fst (connect sc st)) = get_prop tokenData KAddress
  /\ client (fst (connect sc st)) = Some c.
Proof.
  intros Hflag Hnone Hfetch Hinit.
  rewrite (fst_connect_run sc st Hflag), (connect_completes sc st Hflag Hnone).
  rewrite Hnone. cbv zeta.
  split; [reflexivity|].
  unfold failure_of, first_throw, client_channels, session_channels in Hnone.
  unfold connect_body, token_step, client_step,
    session_step, started_step, member, convert, bind, await, perform, call,
    act, gets, throw, ret.
  rewrite Hfetch, Hinit in *.
  destruct (nullish tokenData); [discriminate Hnone|].
  destruct (truthy (get_prop tokenData KError)); [discriminate Hnone|].
  cbn [currentDestination set_credentials fst snd].
  destruct (to_string (get_prop tokenData KAddress)) as [text|];
    [|discriminate Hnone].
  destruct (client_on_result sc "user_event"); [discriminate Hnone|].
  destruct (client_on_result sc "calling.user_event"); [discriminate Hnone|].
  destruct (client_on_result sc "signalwire.event"); [discriminate Hnone|].
  destruct (dial_result sc) as [e | s]; [discriminate Hnone|].
  destruct (session_on_result sc "user_event"); [discriminate Hnone|].
  destruct (session_on_result sc "room.joined"); [discriminate Hnone|].
  destruct (session_on_result sc "room.left"); [discriminate Hnone|].
  destruct (session_on_result sc "destroy"); [discriminate Hnone|].
  destruct (start_result sc) as [e | []]; [discriminate Hnone|].
  repeat (cbn -[trim deliver_all];
          rewrite ?effects_deliver_all, ?currentToken_deliver_all,
            ?currentDestination_deliver_all, ?client_deliver_all).
  repeat split. unfold connect_calls. now rewrite <- !app_assoc.
Qed.

Lemma connect_success_calls_witness :
  effects (fst (connect (all_succeed 7) loaded_page))
  = effects loaded_page ++ connect_calls (JStr "tok") (JStr "/public/agent").
Proof.
  apply (connect_success_calls (all_succeed 7) loaded_page token_response 1);
    reflexivity.
Defined.

(** X12. Whatever fails and whatever arrives meanwhile, the calls a run of
    [connect] makes are an initial part of the eleven calls of the six
    steps, in program order. The first is the request for the token; when
    step [k] fails every call of an earlier step has been made and no call
    of a later step is; when none fails all eleven are made; and [connect]
    never hangs up. *)
Theorem connect_calls_prefix (sc : ConnectScript) (st : State) :
  isConnected st = false ->
  exists token destination n made,
    1 <= n <= 11
    /\ made = firstn n (connect_calls token destination)
    /\ effects (fst (connect sc st)) = effects st ++ made
    /\ hd_error made = Some FetchToken
    /\ (failure_of sc = None -> n = 11)
    /\ (forall k error, failure_of sc = Some (k, error) ->
        forall c, In c made -> step_of_call c <= k)
    /\ (forall k error, failure_of sc = Some (k, error) ->
        forall c, In c (connect_calls token destination) ->
                  step_of_call c < k -> In c made)
    /\ forall s, ~ In (Hangup s) made.
Proof.
  intros Hflag.
  destruct (connect_body_calls sc
              (logEvent "system" "Fetching authentication token..."
                 (updateStatus "connecting" "Getting token..." st)))
    as [token [destination [n [Hn [Hcalls [Hall [Hstep Hearlier]]]]]]].
  exists token, destination, n, (firstn n (connect_calls token destination)).
  split; [exact Hn|]. split; [reflexivity|]. split.
  { rewrite (fst_connect_run sc st Hflag). cbv zeta.
    destruct (failure_of sc) as [[k error]|]; [|exact Hcalls].
    destruct (connect_catch_keeps error
                (fst (connect_body sc
                        (logEvent "system" "Fetching authentication token..."
                           (updateStatus "connecting" "Getting token..." st)))))
      as [_ [_ [_ He]]].
    rewrite He. exact Hcalls. }
  split; [destruct n as [|n]; [lia | reflexivity]|].
  split; [exact Hall|]. split; [exact Hstep|]. split; [exact Hearlier|].
  intros s Hin.
  assert (Hin' : In (Hangup s) (connect_calls token destination)).
  { rewrite <- (firstn_skipn n (connect_calls token destination)).
    apply in_or_app. left. exact Hin. }
  cbn in Hin'.
  repeat (destruct Hin' as [Hin' | Hin']; [discriminate Hin'|]).
  exact Hin'.
Qed.

Lemma connect_calls_prefix_witness :
  exists token destination n made,
    1 <= n <= 11
    /\ made = firstn n (connect_calls token destination)
    /\ effects (fst (connect (failing_at 4 boom) loaded_page))
       = effects loaded_page ++ made
    /\ hd_error made = Some FetchToken
    /\ (failure_of (failing_at 4 boom) = None -> n = 11)
    /\ (forall k error, failure_of (failing_at 4 boom) = Some (k, error) ->
        forall c, In c made -> step_of_call c <= k)
    /\ (forall k error, failure_of (failing_at 4 boom) = Some (k, error) ->
        forall c, In c (connect_calls token destination) ->
                  step_of_call c < k -> In c made)
    /\ forall s, ~ In (Hangup s) made.
Proof.
  apply (connect_calls_prefix (failing_at 4 boom) loaded_page). reflexivity.
Defined.

(** X13. When the first step fails (the request fails, the response is
    [null], or it has a truthy [error] field) the SDK is not called at
    all, and the client handle and the credentials of an earlier run stay
    as they were. *)
Theorem token_failure_keeps_credentials (sc : ConnectScript) (st : State)
  (error : JsError) :
  isConnected st = false ->
  failure_of sc = Some (1, error) ->
  effects (fst (connect sc st)) = effects st ++ [FetchToken]
  /\ currentToken (fst (connect sc st)) = currentToken st
  /\ currentDestination (fst (connect sc st)) = currentDestination st
  /\ client (fst (connect sc st)) = client st.
Proof.
  intros Hflag Hfail.
  rewrite (fst_connect_run sc st Hflag), Hfail. cbv zeta.
  destruct (connect_catch_keeps error
              (fst (connect_body sc
                      (logEvent "system" "Fetching authentication token..."
                         (updateStatus "connecting" "Getting token..." st)))))
    as [Hc [Ht [Hd He]]].
  rewrite Hc, Ht, Hd, He. clear Hc Ht Hd He.
  unfold failure_of, first_throw, client_channels, session_channels in Hfail.
  unfold connect_body, token_step, member, convert, bind, await,
    perform, call, act, gets, throw, ret.
  destruct (fetch_result sc) as [e | tokenData].
  - cbn -[trim deliver_all].
    rewrite effects_deliver_all, currentToken_deliver_all,
      currentDestination_deliver_all, client_deliver_all.
    repeat split.
  - destruct (nullish tokenData);
      [|destruct (truthy (get_prop tokenData KError));
        [destruct (to_string (get_prop tokenData KError)) as [text|]|]].
    1, 2, 3: cbn -[trim deliver_all];
      rewrite effects_deliver_all, currentToken_deliver_all,
        currentDestination_deliver_all, client_deliver_all;
      repeat split.
    exfalso.
    destruct (to_string (get_prop tokenData KAddress));
      [|discriminate Hfail].
    destruct (init_result sc); [discriminate Hfail|].
    destruct (client_on_result sc "user_event"); [discriminate Hfail|].
    destruct (client_on_result sc "calling.user_event"); [discriminate Hfail|].
    destruct (client_on_result sc "signalwire.event"); [discriminate Hfail|].
    destruct (dial_result sc); [discriminate Hfail|].
    destruct (session_on_result sc "user_event"); [discriminate Hfail|].
    destruct (session_on_result sc "room.joined"); [discriminate Hfail|].
    destruct (session_on_result sc "room.left"); [discriminate Hfail|].
    destruct (session_on_result sc "destroy"); [discriminate Hfail|].
    destruct (start_result sc); discriminate Hfail.
Qed.

Lemma token_failure_keeps_credentials_witness :
  effects (fst (connect refused dialed_page))
  = effects dialed_page ++ [FetchToken]
  /\ currentToken (fst (connect refused dialed_page)) = JStr "tok".
Proof.
  destruct (token_failure_keeps_credentials refused dialed_page
              (mkError "no credentials") eq_refl eq_refl)
    as [Hcalls [Htoken _]].
  split; [exact Hcalls | exact Htoken].
Defined.



(* ------------------------------------------------------------------------- *)
(** ** What one turn of the event loop can do *)
(* ------------------------------------------------------------------------- *)

(** The log after a piece of [connect], whether it runs to its end or
    throws: left alone, or ending with an append. *)
Lemma piece_log (piece : Task unit) (st : State) :
  connect_piece piece ->
  eventLog (fst (piece st)) = eventLog st
  \/ exists type msg before,
       eventLog (fst (piece st)) = eventLog (logEvent type msg before).
Proof.
  intros Hp. destruct Hp as [tokenData | on c | on s | | error].
  - unfold token_step, member, convert, bind, throw, ret, act, gets,
      perform, call.
    destruct (nullish tokenData); [left; reflexivity|].
    destruct (truthy (get_prop tokenData KError)).
    { destruct (to_string (get_prop tokenData KError)); left; reflexivity. }
    cbn -[trim].
    destruct (to_string (get_prop tokenData KAddress)); cbn -[trim];
      [right; do 3 eexists; cbn -[trim]; reflexivity | left; reflexivity].
  - right. unfold client_step, bind, act, gets, perform, call.
    cbn -[trim].
    destruct (on "user_event"); cbn -[trim];
      [do 3 eexists; cbn -[trim]; reflexivity|].
    destruct (on "calling.user_event"); cbn -[trim];
      [do 3 eexists; cbn -[trim]; reflexivity|].
    destruct (on "signalwire.event"); cbn -[trim];
      do 3 eexists; cbn -[trim]; reflexivity.
  - right. unfold session_step, bind, act, gets, perform, call.
    cbn -[trim].
    destruct (on "user_event"); cbn -[trim];
      [do 3 eexists; cbn -[trim]; reflexivity|].
    destruct (on "room.joined"); cbn -[trim];
      [do 3 eexists; cbn -[trim]; reflexivity|].
    destruct (on "room.left"); cbn -[trim];
      [do 3 eexists; cbn -[trim]; reflexivity|].
    destruct (on "destroy"); cbn -[trim];
      do 3 eexists; cbn -[trim]; reflexivity.
  - right. do 3 eexists. reflexivity.
  - left. reflexivity.
Qed.

(** A piece of [connect], resumed: to the flag, the status and the log. *)
Lemma resume_summary (piece : Task unit) (st : State) :
  connect_piece piece ->
  (isConnected (resume piece st) = false
   \/ isConnected (resume piece st) = isConnected st)
  /\ (statusClass (resume piece st) = statusClass st
      \/ exists s, connection_state (resume piece st) = Some s)
  /\ (eventLog (resume piece st) = eventLog st
      \/ exists type msg before,
           eventLog (resume piece st) = eventLog (logEvent type msg before)).
Proof.
  intros Hp.
  destruct (piece_frame piece st Hp) as [Hf [_ [_ Hs]]].
  pose proof (piece_log piece st Hp) as Hl.
  unfold resume.
  destruct (piece st) as [st' [error | u]]; cbn [fst] in Hf, Hs, Hl.
  - unfold connect_catch.
    destruct (connect_catch_cases error st')
      as [[thrown E] | [text [_ [_ E]]]]; rewrite E; cbn [fst].
    + split; [right; exact Hf|].
      split; [destruct Hs; [left; assumption | right; eauto] | exact Hl].
    + split; [left; reflexivity|].
      split; [right; exists Disconnected; reflexivity|].
      right. do 3 eexists. reflexivity.
  - split; [right; exact Hf|].
    split; [destruct Hs; [left; assumption | right; eauto] | exact Hl].
Qed.

(** One turn: the flag is set by the [room.joined] handler or not at all;
    the status element is left alone or shows one of the six states; the
    log is left alone or ends with an append. *)
Lemma step_summary (st st' : State) :
  step st st' ->
  (st' = on_room_joined st
   \/ isConnected st' = false
   \/ isConnected st' = isConnected st)
  /\ (statusClass st' = statusClass st
      \/ exists s, connection_state st' = Some s)
  /\ (eventLog st' = eventLog st
      \/ exists type msg before,
           eventLog st' = eventLog (logEvent type msg before)).
Proof.
  assert (Huser : forall p,
             (handleUserEvent p st = on_room_joined st
              \/ isConnected (handleUserEvent p st) = false
              \/ isConnected (handleUserEvent p st) = isConnected st)
             /\ (statusClass (handleUserEvent p st) = statusClass st
                 \/ exists s, connection_state (handleUserEvent p st) = Some s)
             /\ (eventLog (handleUserEvent p st) = eventLog st
                 \/ exists type msg before,
                      eventLog (handleUserEvent p st)
                      = eventLog (logEvent type msg before))).
  { intros p. rewrite handleUserEvent_normalize.
    destruct (normalize p) as [ev|];
      [|split; [right; right; reflexivity | split; left; reflexivity]].
    destruct (reflect_connection ev st)
      as [_ [_ [_ [_ [Hflag [Hstatus _]]]]]].
    split; [right; right; exact Hflag|].
    split; [left; exact Hstatus|].
    unfold reflect, reflect_run, convert, bind, throw, ret, act.
    destruct ev as [name | message | count increment | rawType data].
    - destruct (to_string name); [|left; reflexivity].
      right; do 3 eexists; reflexivity.
    - destruct (to_string message); [|left; reflexivity].
      right; do 3 eexists; reflexivity.
    - destruct (to_string count); [|left; reflexivity].
      destruct (to_string increment); [|left; reflexivity].
      right; do 3 eexists; reflexivity.
    - right; do 3 eexists; reflexivity. }
  intros Hstep. destruct Hstep as [n st | st | piece st Hp | st | st].
  - destruct n as [p | p | p | p | | | | d | now]; cbn [deliver];
      try apply Huser.
    + unfold on_signalwire_event. destruct (nullish p).
      * split; [right; right; reflexivity|].
        split; left; reflexivity.
      * destruct (is_str _ _); [apply Huser|].
        split; [right; right; reflexivity|]. split; left; reflexivity.
    + split; [left; reflexivity|].
      split; [right; exists Connected|right; do 3 eexists];
        unfold on_room_joined; cbn -[logEvent];
        destruct (placeholder _); reflexivity.
    + split; [right; left; reflexivity|].
      split; [right; exists Disconnected; reflexivity|].
      right; do 3 eexists; reflexivity.
    + split; [right; left; reflexivity|].
      split; [right; exists Disconnected; reflexivity|].
      right; do 3 eexists; reflexivity.
    + split; [right; right; destruct d; reflexivity|].
      split; left; destruct d; reflexivity.
    + split; [right; right; reflexivity|]. split; left; reflexivity.
  - unfold connect_click, connect_enter, resume, perform, call.
    destruct (isConnected st) eqn:Ef.
    + split; [right; right; cbn; now rewrite Ef|].
      split; [left; reflexivity|]. right; do 3 eexists; reflexivity.
    + split; [right; left; cbn; exact Ef|].
      split; [right; exists Connecting; reflexivity|].
      right; do 3 eexists; cbn -[logEvent]; reflexivity.
  - destruct (resume_summary piece st Hp) as [Hflag [Hstatus Hlog]].
    split; [destruct Hflag; auto|]. split; [exact Hstatus | exact Hlog].
  - unfold disconnect_click, disconnect_enter.
    destruct (negb (isConnected st) && negb (has_session st)).
    + split; [right; right; reflexivity|].
      split; [left; reflexivity|]. right; do 3 eexists; reflexivity.
    + cbn -[logEvent handleDisconnect]. destruct (roomSession _).
      * split; [right; right; reflexivity|].
        split; [right; exists Disconnecting; reflexivity|].
        right; do 3 eexists; cbn -[logEvent]; reflexivity.
      * split; [right; left; reflexivity|].
        split; [right; exists Disconnected; reflexivity|].
        right; do 3 eexists; cbn -[logEvent]; reflexivity.
  - split; [right; left; reflexivity|].
    split; [right; exists Disconnected; reflexivity|]. left; reflexivity.
Qed.

(** X15. The flag [isConnected] is set by the [room.joined] handler and by
    nothing else: a turn of the event loop that finds it clear and leaves
    it set is a run of that handler. *)
Theorem flag_set_only_by_room_joined (st st' : State) :
  step st st' ->
  isConnected st = false -> isConnected st' = true ->
  st' = on_room_joined st.
Proof.
  intros Hstep Hoff Hon.
  destruct (step_summary st st' Hstep) as [[Hjoin | [Hf | Hf]] _].
  - exact Hjoin.
  - congruence.
  - congruence.
Qed.

Lemma flag_set_only_by_room_joined_witness :
  joined_page = on_room_joined dialed_page.
Proof.
  apply (flag_set_only_by_room_joined dialed_page joined_page).
  - apply (step_deliver RoomJoined).
  - vm_compute. reflexivity.
  - vm_compute. reflexivity.
Defined.

(** X16. From a page that loads with the status [ready], the status
    element shows one of the six states in every state the page goes
    through. *)
Theorem status_always_known (page st : State) :
  connection_state page = Some Idle ->
  reachable page st ->
  exists s, connection_state st = Some s.
Proof.
  intros Hpage Hreach. induction Hreach as [|st st' _ IH Hstep].
  - exists Idle. rewrite <- Hpage. apply connection_state_ext. reflexivity.
  - destruct (step_summary st st' Hstep) as [_ [[Hsame | Hknown] _]].
    + destruct IH as [s Hs]. exists s. rewrite <- Hs.
      now apply connection_state_ext.
    + exact Hknown.
Qed.

Lemma status_always_known_witness :
  exists s, connection_state hanging_up_page = Some s.
Proof.
  apply (status_always_known fresh_page hanging_up_page).
  - reflexivity.
  - apply reachable_hanging_up_page.
Defined.

(** X17. In every state the page goes through the log holds at least one
    entry and at most 50, whatever the markup put in it. *)
Theorem log_bounds_always (page st : State) :
  reachable page st ->
  1 <= List.length (eventLog st) <= 50.
Proof.
  assert (Happend : forall type msg before,
             1 <= List.length (eventLog (logEvent type msg before)) <= 50).
  { intros type msg before. rewrite eventLog_logEvent. split.
    - rewrite newest_snoc, length_app. cbn. lia.
    - apply newest_length. }
  intros Hreach. induction Hreach as [|st st' _ IH Hstep].
  - apply Happend.
  - destruct (step_summary st st' Hstep)
      as [_ [_ [Hsame | [type [msg [before Hlog]]]]]].
    + now rewrite Hsame.
    + rewrite Hlog. apply Happend.
Qed.

Lemma log_bounds_always_witness :
  1 <= List.length (eventLog hanging_up_page) <= 50.
Proof.
  apply (log_bounds_always fresh_page hanging_up_page).
  apply reachable_hanging_up_page.
Defined.








(** X20. Loading the script appends its two start-up lines, in order, as
    the newest entries of the log, and writes nothing else. *)
Theorem startup_logs_two_lines (page : State) :
  (exists older,
      eventLog (startup page)
      = older ++ [mkLogEntry (wallClock page) "system" "Application loaded";
                  mkLogEntry (wallClock page) "system"
                    "Ready to connect to SignalWire AI agent"])
  /\ (eventLog page = [] ->
      eventLog (startup page)
      = [mkLogEntry (wallClock page) "system" "Application loaded";
         mkLogEntry (wallClock page) "system"
           "Ready to connect to SignalWire AI agent"])
  /\ set_eventLog (eventLog page) (startup page) = page.
Proof.
  split; [|split].
  - unfold startup. rewrite !eventLog_logEvent.
    change (wallClock (logEvent "system" "Application loaded" page))
      with (wallClock page).
    apply newest_two.
  - intros Hempty. unfold startup. rewrite !eventLog_logEvent, Hempty.
    reflexivity.
  - destruct page. reflexivity.
Qed.

Lemma startup_logs_two_lines_witness :
  eventLog loaded_page
  = [mkLogEntry "09:00:00" "system" "Application loaded";
     mkLogEntry "09:00:00" "system" "Ready to connect to SignalWire AI agent"].
Proof.
  apply (proj1 (proj2 (startup_logs_two_lines fresh_page))). reflexivity.
Defined.
